(** * Retryable-ticket and fee-aggregator precompiles

    A shallow embedding of [precompiles/ArbAggregator.go] and
    [precompiles/ArbRetryableTx.go].  The precompile methods are written in a
    small state-and-error monad over the call's world (caller, gas budget,
    chain state, block time, effect trace); the ticket store and the L1
    pricing registry are consumed through interfaces, exactly as the Go code
    consumes [c.state.RetryableState()] and [c.state.L1PricingState()]. *)

From stdpp Require Import gmap strings.
From Stdlib Require Import ZArith Lia.

Local Open Scope Z_scope.

(** ** Machine integers *)

(** [uint64] values are integers in [0, 2^64); arithmetic wraps. *)
Definition wrap64 (z : Z) : Z := z mod 2 ^ 64.

(** Go's [int64(x)] conversion of a [uint64]: two's-complement
    reinterpretation of the same 64 bits. *)
Definition int64 (z : Z) : Z :=
  if wrap64 z <? 2 ^ 63 then wrap64 z else wrap64 z - 2 ^ 64.

(** [Uint64] of a [big.Int]: the low 64 bits of the magnitude. *)
Definition Uint64 (x : Z) : Z := wrap64 (Z.abs x).

(** [[32]byte] hashes and 20-byte addresses are carried as integers; the
    code only compares them and passes them on. *)
Abbreviation hash := Z (only parsing).
Abbreviation addr := Z (only parsing).

(** ** Errors and results *)

Inductive StoreOp :=
| OpOpenRetryable | OpDeleteRetryable | OpRetryableSizeBytes | OpKeepalive
| OpBeneficiary | OpTimeout | OpIncrementNumTries
| OpAggregatorFeeCollector | OpSetAggregatorFeeCollector
| OpDefaultAggregator | OpSetDefaultAggregator
| OpPreferredAggregator | OpSetPreferredAggregator
| OpFixedChargeForAggregatorL1Gas | OpSetFixedChargeForAggregatorL1Gas.

Inductive error :=
| NotFoundError                 (* var NotFoundError = errors.New("ticketId not found") *)
| ErrorsNew (msg : string)      (* errors.New(msg) built at the return site *)
| ErrOutOfGas                   (* a burn the gas budget cannot satisfy *)
| ErrStore (op : StoreOp)       (* a failure reported by the store *)
| NilDereference.               (* method call through a nil ticket handle *)

Inductive result (A : Type) :=
| Ok (a : A)
| Err (e : error).
Arguments Ok {A} a.
Arguments Err {A} e.

(** The [error] half of a Go [(value, error)] return: [None] is [nil]. *)
Definition errorOf {A} (r : result A) : option error :=
  match r with Ok _ => None | Err e => Some e end.

(** ** Events and the effect trace *)

Inductive Event :=
| TicketCreated (ticketId : hash)
| LifetimeExtended (ticketId : hash) (newTimeout : Z)
| RedeemScheduled (ticketId retryTxHash : hash) (sequenceNum donatedGas : Z) (gasDonor : addr)
| Redeemed (ticketId : hash)
| Canceled (ticketId : hash).

(** Everything a call does to its surroundings, in program order. *)
Inductive Effect :=
| Burn (amount : Z)
| Call (op : StoreOp)
| Emit (ev : Event).

Definition burnOf (e : Effect) : option Z :=
  match e with Burn a => Some a | _ => None end.
Definition eventOf (e : Effect) : option Event :=
  match e with Emit ev => Some ev | _ => None end.

(** ** The world of one precompile call

    [caller], [gasLeft] and [state] are the fields of the Go [ctx];
    [Time] is [evm.Context.Time]; [trace] records the gas burns, store calls
    and event emissions performed so far. *)
Record World (S : Type) := mkWorld {
  caller : addr;
  gasLeft : Z;
  state : S;
  Time : Z;
  trace : list Effect
}.
Arguments mkWorld {S}.
Arguments caller {S}.
Arguments gasLeft {S}.
Arguments state {S}.
Arguments Time {S}.
Arguments trace {S}.

Definition burned {S} (w : World S) : list Z := omap burnOf (trace w).
Definition events {S} (w : World S) : list Event := omap eventOf (trace w).

Definition record {S} (e : Effect) (w : World S) : World S :=
  mkWorld (caller w) (gasLeft w) (state w) (Time w) (trace w ++ [e]).
Definition setGasLeft {S} (g : Z) (w : World S) : World S :=
  mkWorld (caller w) g (state w) (Time w) (trace w).
Definition setState {S} (s : S) (w : World S) : World S :=
  mkWorld (caller w) (gasLeft w) s (Time w) (trace w).

(** ** The call monad *)

Definition M (S A : Type) : Type := World S → result A * World S.

Definition throw {S A} (e : error) : M S A := λ w, (Err e, w).

#[global] Instance M_ret {S} : MRet (M S) := λ A a w, (Ok a, w).
#[global] Instance M_bind {S} : MBind (M S) := λ A B k m w,
  match m w with
  | (Ok a, w') => k a w'
  | (Err e, w') => (Err e, w')
  end.

(** [v, err = f()] without an immediate [if err != nil]: the outcome becomes
    a value and execution continues. *)
Definition attempt {S A} (m : M S A) : M S (result A) :=
  λ w, let (r, w') := m w in (Ok r, w').

(** [return err] for a stored outcome. *)
Definition returnErr {S A} (r : result A) : M S unit :=
  match r with Ok _ => mret tt | Err e => throw e end.

Definition getCaller {S} : M S addr := λ w, (Ok (caller w), w).
Definition getGasLeft {S} : M S Z := λ w, (Ok (gasLeft w), w).
(** [evm.Context.Time.Uint64()] *)
Definition currentTimestamp {S} : M S Z := λ w, (Ok (Uint64 (Time w)), w).

(** Modelled from the spec: [c.burn], the gas meter of the call context, is
    missing from the sources.  "If a burn cannot be satisfied by the caller's
    remaining gas budget, the operation fails immediately with an out-of-gas
    condition and no state is mutated"; otherwise the amount leaves the
    budget. *)
Definition burn {S} (amount : Z) : M S unit :=
  λ w, if gasLeft w <? amount then (Err ErrOutOfGas, w)
       else (Ok tt, record (Burn amount) (setGasLeft (gasLeft w - amount) w)).

(** A store method that only reads. *)
Definition query {S A} (op : StoreOp) (f : S → result A) : M S A :=
  λ w, (f (state w), record (Call op) w).

(** A store method that may write. *)
Definition update {S A} (op : StoreOp) (f : S → result A * S) : M S A :=
  λ w, let (r, s') := f (state w) in (r, record (Call op) (setState s' w)).

(** An event emitter of the precompile ([con.Canceled(evm, ...)] and the
    like): the event is appended to the log. *)
Definition emit {S} (ev : Event) : M S unit :=
  λ w, (Ok tt, record (Emit ev) w).

(** ** External constants *)

(** go-ethereum's [params.SloadGas] and [params.SstoreSetGas]. *)
Class GasParams := {
  SloadGas : Z;
  SstoreSetGas : Z
}.

(** Modelled from the spec: [util.WordsForBytes] is missing from the
    sources; "words(n) = ceil(n / 32)". *)
Definition WordsForBytes (nbytes : Z) : Z := (nbytes + 31) / 32.

(** ** The retryables package, as the precompile consumes it *)

Module retryables.

(** The constant [RetryableLifetimeSeconds] and the function
    [TxIdForRedeemAttempt] of the package; neither is in the sources.  The
    precompile uses the constant both as a [uint64] (added to the current
    time in Keepalive) and as an [int64] (the argument of [big.NewInt] in
    GetLifetime), so it lies below 2^63. *)
Class Consts := {
  RetryableLifetimeSeconds : Z;
  TxIdForRedeemAttempt : hash → Z → hash;
  RetryableLifetimeSeconds_fits : 0 ≤ RetryableLifetimeSeconds < 2 ^ 63
}.

(** The methods of [RetryableState] and [Retryable] that the precompile
    calls.  [R] is the type of an open ticket handle.  Each method returns
    Go's [(value, error)]; the ones the store interface describes as reads
    return no new state. *)
Class Store (S R : Type) := {
  OpenRetryable : hash → Z → S → result (option R);
  DeleteRetryable : hash → S → result bool * S;
  RetryableSizeBytes : hash → Z → S → result Z;
  Keepalive : hash → Z → Z → Z → S → result unit * S;
  Beneficiary : R → S → result addr;
  Timeout : R → S → result Z;
  IncrementNumTries : R → S → result Z * S
}.

End retryables.

(** ** The L1 pricing registry, as the precompile consumes it *)

Module l1pricing.

(** The methods of [L1PricingState] that [ArbAggregator] calls. *)
Class Registry (S : Type) := {
  AggregatorFeeCollector : addr → S → result addr;
  SetAggregatorFeeCollector : addr → addr → S → result unit * S;
  DefaultAggregator : S → result addr;
  SetDefaultAggregator : addr → S → result unit * S;
  PreferredAggregator : addr → S → result (addr * bool);
  SetPreferredAggregator : addr → addr → S → result unit * S;
  FixedChargeForAggregatorL1Gas : addr → S → result Z;
  SetFixedChargeForAggregatorL1Gas : addr → Z → S → result unit * S
}.

End l1pricing.

(** ** precompiles/ArbAggregator.go *)

Record ArbAggregator := {
  ArbAggregator_Address : addr
}.

Section ArbAggregator_methods.
Context {S : Type} `{l1pricing.Registry S}.
Variable con : ArbAggregator.

Definition GetFeeCollector (aggregator : addr) : M S addr :=
  query OpAggregatorFeeCollector (l1pricing.AggregatorFeeCollector aggregator).

Definition GetDefaultAggregator : M S addr :=
  query OpDefaultAggregator l1pricing.DefaultAggregator.

Definition GetPreferredAggregator (address : addr) : M S (addr * bool) :=
  query OpPreferredAggregator (l1pricing.PreferredAggregator address).

Definition GetTxBaseFee (aggregator : addr) : M S Z :=
  query OpFixedChargeForAggregatorL1Gas
        (l1pricing.FixedChargeForAggregatorL1Gas aggregator).

Definition SetFeeCollector (aggregator newFeeCollector : addr) : M S unit :=
  collector ← query OpAggregatorFeeCollector
                     (l1pricing.AggregatorFeeCollector aggregator);
  caller ← getCaller;
  if bool_decide (caller ≠ aggregator) && bool_decide (caller ≠ collector) then
    (* only the aggregator and its current fee collector can change the
       aggregator's fee collector *)
    throw (ErrorsNew "non-authorized c.caller in ArbAggregator.SetFeeCollector")
  else
    update OpSetAggregatorFeeCollector
           (l1pricing.SetAggregatorFeeCollector aggregator newFeeCollector).

Definition SetDefaultAggregator (newDefault : addr) : M S unit :=
  update OpSetDefaultAggregator (l1pricing.SetDefaultAggregator newDefault).

Definition SetPreferredAggregator (prefAgg : addr) : M S unit :=
  caller ← getCaller;
  update OpSetPreferredAggregator (l1pricing.SetPreferredAggregator caller prefAgg).

Definition SetTxBaseFee (aggregator : addr) (feeInL1Gas : Z) : M S unit :=
  update OpSetFixedChargeForAggregatorL1Gas
         (l1pricing.SetFixedChargeForAggregatorL1Gas aggregator feeInL1Gas).

End ArbAggregator_methods.

(** ** precompiles/ArbRetryableTx.go *)

(** The struct's event emitters are modelled by [emit]; its gas-cost
    functions are the fields below. *)
Record ArbRetryableTx := {
  Address : addr;
  TicketCreatedGasCost : hash → Z;
  LifetimeExtendedGasCost : hash → Z → Z;
  RedeemScheduledGasCost : hash → hash → Z → Z → addr → Z;
  RedeemedGasCost : hash → Z;
  CanceledGasCost : hash → Z
}.

Section ArbRetryableTx_methods.
Context `{GasParams} `{retryables.Consts} {S R : Type} `{retryables.Store S R}.
Variable con : ArbRetryableTx.

Definition Cancel (ticketId : hash) : M S unit :=
  now ← currentTimestamp;
  retryable ← query OpOpenRetryable (retryables.OpenRetryable ticketId now);
  match retryable with
  | None => throw NotFoundError
  | Some retryable =>
      beneficiary ← query OpBeneficiary (retryables.Beneficiary retryable);
      caller ← getCaller;
      if bool_decide (caller ≠ beneficiary) then
        throw (ErrorsNew "only the beneficiary may cancel a retryable")
      else
        (* no refunds are given for deleting retryables because they use
           rented space *)
        err ← attempt (update OpDeleteRetryable
                               (retryables.DeleteRetryable ticketId));
        emit (Canceled ticketId);;
        returnErr err
  end.

Definition GetBeneficiary (ticketId : hash) : M S addr :=
  burn (wrap64 (2 * SloadGas));;
  now ← currentTimestamp;
  retryable ← query OpOpenRetryable (retryables.OpenRetryable ticketId now);
  match retryable with
  | None => throw NotFoundError
  | Some retryable => query OpBeneficiary (retryables.Beneficiary retryable)
  end.

Definition GetLifetime : M S Z :=
  (* there's no need to burn gas for something this cheap *)
  mret retryables.RetryableLifetimeSeconds.

Definition GetTimeout (ticketId : hash) : M S Z :=
  now ← currentTimestamp;
  retryable ← query OpOpenRetryable (retryables.OpenRetryable ticketId now);
  match retryable with
  | None => throw NotFoundError
  | Some retryable =>
      timeout ← query OpTimeout (retryables.Timeout retryable);
      mret (int64 timeout)
  end.

Definition Keepalive (ticketId : hash) : M S Z :=
  (* charge for the check & event *)
  let eventCost := LifetimeExtendedGasCost con ticketId 0 in
  burn (wrap64 (6 * SloadGas + 2 * SstoreSetGas + eventCost));;
  (* charge for the expiry update *)
  now ← currentTimestamp;
  nbytes ← query OpRetryableSizeBytes (retryables.RetryableSizeBytes ticketId now);
  if bool_decide (nbytes = 0) then throw NotFoundError
  else
    let updateCost := wrap64 (WordsForBytes nbytes * SstoreSetGas) / 100 in
    burn updateCost;;
    currentTime ← currentTimestamp;
    let window := wrap64 (currentTime + retryables.RetryableLifetimeSeconds) in
    update OpKeepalive
           (retryables.Keepalive ticketId currentTime window
                                 retryables.RetryableLifetimeSeconds);;
    retryable ← query OpOpenRetryable (retryables.OpenRetryable ticketId currentTime);
    match retryable with
    | None => throw NilDereference
    | Some retryable =>
        newTimeout ← query OpTimeout (retryables.Timeout retryable);
        emit (LifetimeExtended ticketId (int64 newTimeout));;
        mret (int64 newTimeout)
    end.

Definition Redeem (ticketId : hash) : M S hash :=
  caller ← getCaller;
  let eventCost := RedeemScheduledGasCost con ticketId ticketId 0 0 caller in
  burn (wrap64 (5 * SloadGas + SstoreSetGas + eventCost));;
  now ← currentTimestamp;
  byteCount ← query OpRetryableSizeBytes (retryables.RetryableSizeBytes ticketId now);
  let writeBytes := WordsForBytes byteCount in
  burn (wrap64 (SloadGas * writeBytes));;
  now ← currentTimestamp;
  retryable ← query OpOpenRetryable (retryables.OpenRetryable ticketId now);
  match retryable with
  | None => throw NotFoundError
  | Some retryable =>
      sequenceNum ← update OpIncrementNumTries
                            (retryables.IncrementNumTries retryable);
      let redeemTxId := retryables.TxIdForRedeemAttempt ticketId sequenceNum in
      gas ← getGasLeft;
      caller ← getCaller;
      emit (RedeemScheduled ticketId redeemTxId sequenceNum gas caller);;
      (* now donate all of the remaining gas to the retry: we burn the gas
         here, and it is added back into the gas pool just before the retry
         runs *)
      gas ← getGasLeft;
      burn gas;;
      mret redeemTxId
  end.

End ArbRetryableTx_methods.

(** ** The ticket store described by the specification

    The store itself (package [retryables]) is not part of the sources; the
    definitions below follow the store interface of the specification. *)

Module SpecStore.

(** Modelled from the spec: the ticket record of the missing ticket store,
    with the fields [beneficiary], [sizeBytes], [numTries], [timeout]
    ([ticketId] is the key under which the record is stored). *)
Record Retryable := mkRetryable {
  beneficiary : addr;
  sizeBytes : Z;
  numTries : Z;
  timeout : Z
}.

Abbreviation RetryableState := (gmap Z Retryable).

(** Modelled from the spec: expiry, enforced by the missing store on open;
    "the ticket is considered absent once current time passes this value". *)
Definition expired (now : Z) (t : Retryable) : bool := timeout t <? now.

(** Modelled from the spec: the lookup shared by the missing store's
    operations; a ticket counts only "if it exists and has not expired
    relative to now". *)
Definition lookupLive (ticketId : hash) (now : Z) (s : RetryableState)
  : option Retryable :=
  match s !! ticketId with
  | Some t => if expired now t then None else Some t
  | None => None
  end.

(** Modelled from the spec: [open(ticketId, now)] of the missing store;
    "returns the ticket if it exists and has not expired relative to now;
    returns absent (not an error) otherwise".  The handle of an open ticket
    is its identifier. *)
Definition open (ticketId : hash) (now : Z) (s : RetryableState)
  : result (option hash) :=
  Ok (match lookupLive ticketId now s with
      | Some _ => Some ticketId
      | None => None
      end).

(** Modelled from the spec: [delete(ticketId)] of the missing store;
    "removes the ticket unconditionally", reporting whether it existed. *)
Definition delete (ticketId : hash) (s : RetryableState)
  : result bool * RetryableState :=
  (Ok (bool_decide (is_Some (s !! ticketId))), base.delete ticketId s).

(** Modelled from the spec: [sizeBytes(ticketId, now)] of the missing store;
    "returns 0 if absent/expired, else the stored payload size". *)
Definition size (ticketId : hash) (now : Z) (s : RetryableState) : result Z :=
  Ok (match lookupLive ticketId now s with
      | Some t => sizeBytes t
      | None => 0
      end).

(** Modelled from the spec: [renew(ticketId, now, newTimeout,
    lifetimeWindow)] of the missing store; "sets timeout = newTimeout; fails
    if absent". *)
Definition renew (ticketId : hash) (now newTimeout lifetimeWindow : Z)
    (s : RetryableState) : result unit * RetryableState :=
  match lookupLive ticketId now s with
  | Some t =>
      (Ok tt, <[ticketId := mkRetryable (beneficiary t) (sizeBytes t)
                                        (numTries t) newTimeout]> s)
  | None => (Err (ErrStore OpKeepalive), s)
  end.

(** Modelled from the spec: the ticket capability [beneficiary()] of the
    missing store. *)
Definition readBeneficiary (r : hash) (s : RetryableState) : result addr :=
  match s !! r with
  | Some t => Ok (beneficiary t)
  | None => Err (ErrStore OpBeneficiary)
  end.

(** Modelled from the spec: the ticket capability [timeout()] of the
    missing store. *)
Definition readTimeout (r : hash) (s : RetryableState) : result Z :=
  match s !! r with
  | Some t => Ok (timeout t)
  | None => Err (ErrStore OpTimeout)
  end.

(** Modelled from the spec: the ticket capability [incrementTries()] of the
    missing store; [numTries] is "incremented exactly once" and "never
    decreases", and the new count is returned. *)
Definition incrementTries (r : hash) (s : RetryableState)
  : result Z * RetryableState :=
  match s !! r with
  | Some t =>
      (Ok (numTries t + 1),
       <[r := mkRetryable (beneficiary t) (sizeBytes t) (numTries t + 1)
                          (timeout t)]> s)
  | None => (Err (ErrStore OpIncrementNumTries), s)
  end.

(** Modelled from the spec: the missing ticket store, as an implementation
    of the interface the precompile consumes. *)
#[global] Instance ticketStore : retryables.Store RetryableState hash := {|
  retryables.OpenRetryable := open;
  retryables.DeleteRetryable := delete;
  retryables.RetryableSizeBytes := size;
  retryables.Keepalive := renew;
  retryables.Beneficiary := readBeneficiary;
  retryables.Timeout := readTimeout;
  retryables.IncrementNumTries := incrementTries
|}.

End SpecStore.

(** ** The fee registry described by the specification *)

Module SpecRegistry.

(** Modelled from the spec: the state of the missing L1 pricing registry;
    "a mapping from aggregator address to fee collector address, a mapping
    from aggregator address to a fixed L1-gas surcharge, a per-sender
    preferred-aggregator mapping, and a single default aggregator value". *)
Record L1PricingState := mkL1PricingState {
  feeCollectors : gmap Z Z;
  fixedCharges : gmap Z Z;
  preferredAggregators : gmap Z Z;
  defaultAggregator : addr
}.

(** Modelled from the spec: the lookup of the "fee collector for an
    aggregator" in the missing registry; like the other reads it is a pure
    lookup, and an entry never written reads as the zero value. *)
Definition feeCollector (aggregator : addr) (s : L1PricingState) : result addr :=
  Ok (default 0 (feeCollectors s !! aggregator)).

(** Modelled from the spec: the lookup of "the chain's default aggregator"
    in the missing registry. *)
Definition readDefaultAggregator (s : L1PricingState) : result addr :=
  Ok (defaultAggregator s).

(** Modelled from the spec: the lookup of "a sender's preferred aggregator
    (with a found/not-found flag)" in the missing registry. *)
Definition preferredAggregator (sender : addr) (s : L1PricingState)
  : result (addr * bool) :=
  Ok (match preferredAggregators s !! sender with
      | Some a => (a, true)
      | None => (0, false)
      end).

(** Modelled from the spec: the lookup of "an aggregator's fixed L1-gas
    surcharge" in the missing registry. *)
Definition fixedCharge (aggregator : addr) (s : L1PricingState) : result Z :=
  Ok (default 0 (fixedCharges s !! aggregator)).

(** Modelled from the spec: the write of the missing registry behind
    SetFeeCollector; it reassigns the aggregator's entry. *)
Definition setFeeCollector (aggregator newCollector : addr) (s : L1PricingState)
  : result unit * L1PricingState :=
  (Ok tt, mkL1PricingState (<[aggregator := newCollector]> (feeCollectors s))
                           (fixedCharges s) (preferredAggregators s)
                           (defaultAggregator s)).

(** Modelled from the spec: the write of the missing registry behind
    SetDefaultAggregator. *)
Definition setDefaultAggregator (newDefault : addr) (s : L1PricingState)
  : result unit * L1PricingState :=
  (Ok tt, mkL1PricingState (feeCollectors s) (fixedCharges s)
                           (preferredAggregators s) newDefault).

(** Modelled from the spec: the write of the missing registry behind
    SetPreferredAggregator, "scoped to the calling sender". *)
Definition setPreferredAggregator (sender prefAgg : addr) (s : L1PricingState)
  : result unit * L1PricingState :=
  (Ok tt, mkL1PricingState (feeCollectors s) (fixedCharges s)
                           (<[sender := prefAgg]> (preferredAggregators s))
                           (defaultAggregator s)).

(** Modelled from the spec: the write of the missing registry behind
    SetTxBaseFee. *)
Definition setFixedCharge (aggregator : addr) (fee : Z) (s : L1PricingState)
  : result unit * L1PricingState :=
  (Ok tt, mkL1PricingState (feeCollectors s)
                           (<[aggregator := fee]> (fixedCharges s))
                           (preferredAggregators s) (defaultAggregator s)).

(** Modelled from the spec: the missing registry, as an implementation of
    the interface the precompile consumes. *)
#[global] Instance registry : l1pricing.Registry L1PricingState := {|
  l1pricing.AggregatorFeeCollector := feeCollector;
  l1pricing.SetAggregatorFeeCollector := setFeeCollector;
  l1pricing.DefaultAggregator := readDefaultAggregator;
  l1pricing.SetDefaultAggregator := setDefaultAggregator;
  l1pricing.PreferredAggregator := preferredAggregator;
  l1pricing.SetPreferredAggregator := setPreferredAggregator;
  l1pricing.FixedChargeForAggregatorL1Gas := fixedCharge;
  l1pricing.SetFixedChargeForAggregatorL1Gas := setFixedCharge
|}.

End SpecRegistry.

(** ** Concrete surroundings used to run the methods *)

(** go-ethereum's values of the two storage-access costs. *)
Definition gethParams : GasParams :=
  {| SloadGas := 50; SstoreSetGas := 20000 |}.

(** A lifetime window of 600 seconds, and a ticket-attempt identifier that
    is the concatenation of its two inputs read as one integer. *)
Definition sampleConsts : retryables.Consts :=
  {| retryables.RetryableLifetimeSeconds := 600;
     retryables.TxIdForRedeemAttempt := λ ticketId sequenceNum,
       ticketId * 2 ^ 64 + sequenceNum;
     retryables.RetryableLifetimeSeconds_fits := ltac:(lia) |}.

(** A precompile whose events have fixed costs. *)
Definition sampleCon : ArbRetryableTx :=
  {| Address := 110;
     TicketCreatedGasCost := λ _, 750;
     LifetimeExtendedGasCost := λ _ _, 1006;
     RedeemScheduledGasCost := λ _ _ _ _ _, 2268;
     RedeemedGasCost := λ _, 750;
     CanceledGasCost := λ _, 750 |}.

(** A store whose [DeleteRetryable] reports a failure and otherwise behaves
    as the store of the specification. *)
Definition failingDelete : retryables.Store SpecStore.RetryableState Z :=
  {| retryables.OpenRetryable := SpecStore.open;
     retryables.DeleteRetryable := λ _ s, (Err (ErrStore OpDeleteRetryable), s);
     retryables.RetryableSizeBytes := SpecStore.size;
     retryables.Keepalive := SpecStore.renew;
     retryables.Beneficiary := SpecStore.readBeneficiary;
     retryables.Timeout := SpecStore.readTimeout;
     retryables.IncrementNumTries := SpecStore.incrementTries |}.

(** One ticket, number 7: beneficiary 11, 100 bytes, never tried, expiring
    at time 1000. *)
Definition oneTicket : SpecStore.RetryableState :=
  {[ 7 := SpecStore.mkRetryable 11 100 0 1000 ]}.

(** A store whose reads of the ticket table fail, as a corrupted store
    would; its other methods are those of the store of the specification. *)
Definition unreadable : retryables.Store SpecStore.RetryableState Z :=
  {| retryables.OpenRetryable := λ _ _ _, Err (ErrStore OpOpenRetryable);
     retryables.DeleteRetryable := SpecStore.delete;
     retryables.RetryableSizeBytes := λ _ _ _, Err (ErrStore OpRetryableSizeBytes);
     retryables.Keepalive := SpecStore.renew;
     retryables.Beneficiary := SpecStore.readBeneficiary;
     retryables.Timeout := SpecStore.readTimeout;
     retryables.IncrementNumTries := SpecStore.incrementTries |}.

(** A store whose renewal adds its last argument to the ticket's timeout
    instead of installing the third; its other methods are those of the
    store of the specification. *)
Definition adding : retryables.Store SpecStore.RetryableState Z :=
  {| retryables.OpenRetryable := SpecStore.open;
     retryables.DeleteRetryable := SpecStore.delete;
     retryables.RetryableSizeBytes := SpecStore.size;
     retryables.Keepalive := λ ticketId now _ timeToAdd s,
       match SpecStore.lookupLive ticketId now s with
       | Some t =>
           (Ok tt,
            <[ticketId := SpecStore.mkRetryable
                            (SpecStore.beneficiary t) (SpecStore.sizeBytes t)
                            (SpecStore.numTries t)
                            (SpecStore.timeout t + timeToAdd)]> s)
       | None => (Err (ErrStore OpKeepalive), s)
       end;
     retryables.Beneficiary := SpecStore.readBeneficiary;
     retryables.Timeout := SpecStore.readTimeout;
     retryables.IncrementNumTries := SpecStore.incrementTries |}.

(** Ticket 7 again, but with an empty payload. *)
Definition emptyTicket : SpecStore.RetryableState :=
  {[ 7 := SpecStore.mkRetryable 11 0 0 1000 ]}.

(** Ticket 7 again, but expiring at 2^63 + 5. *)
Definition farTicket : SpecStore.RetryableState :=
  {[ 7 := SpecStore.mkRetryable 11 100 0 (2 ^ 63 + 5) ]}.

(** Two tickets: number 7 as before, and number 8 of beneficiary 21. *)
Definition twoTickets : SpecStore.RetryableState :=
  {[ 7 := SpecStore.mkRetryable 11 100 0 1000;
     8 := SpecStore.mkRetryable 21 64 3 2000 ]}.

(** A registry in which aggregator 1 has fee collector 2. *)
Definition sampleRegistry : SpecRegistry.L1PricingState :=
  SpecRegistry.mkL1PricingState {[ 1 := 2 ]} ∅ ∅ 0.

(** The [error] half of a return whose value is dropped ([_, err = ...]). *)
Definition withoutValue {A} (r : result A) : result unit :=
  match r with Ok _ => Ok tt | Err e => Err e end.


(** ** Vocabulary of the properties *)

(** The ticket [t] is stored under [ticketId] and [now] has not passed its
    timeout. *)
Definition present (ticketId : hash) (now : Z) (s : SpecStore.RetryableState)
    (t : SpecStore.Retryable) : Prop :=
  s !! ticketId = Some t ∧ now ≤ SpecStore.timeout t.

(** Nothing is stored under [ticketId], or [now] has passed the timeout of
    what is. *)
Definition absentOrExpired (ticketId : hash) (now : Z)
    (s : SpecStore.RetryableState) : Prop :=
  s !! ticketId = None
  ∨ ∃ t, s !! ticketId = Some t ∧ SpecStore.timeout t < now.

(** The ticket [t] with its timeout replaced. *)
Definition renewed (newTimeout : Z) (t : SpecStore.Retryable)
  : SpecStore.Retryable :=
  SpecStore.mkRetryable (SpecStore.beneficiary t) (SpecStore.sizeBytes t)
                        (SpecStore.numTries t) newTimeout.

(** The ticket [t] after one more try. *)
Definition tried (t : SpecStore.Retryable) : SpecStore.Retryable :=
  SpecStore.mkRetryable (SpecStore.beneficiary t) (SpecStore.sizeBytes t)
                        (SpecStore.numTries t + 1) (SpecStore.timeout t).

(** The call that led from [w] to [w'] left the store as it was and emitted
    nothing. *)
Definition untouched {S} (w w' : World S) : Prop :=
  state w' = state w ∧ events w' = events w.

(** * Properties *)

(** ** Reasoning about the trace *)

Lemma events_app {S} (w : World S) c g (s : S) t l :
  events (mkWorld c g s t (trace w ++ l)) = events w ++ omap eventOf l.
Proof. unfold events; cbn. apply omap_app. Qed.

Lemma burned_app {S} (w : World S) c g (s : S) t l :
  burned (mkWorld c g s t (trace w ++ l)) = burned w ++ omap burnOf l.
Proof. unfold burned; cbn. apply omap_app. Qed.

(** Unfolds one layer of the monad. *)
Ltac run :=
  repeat (progress (
    unfold mbind, M_bind, mret, M_ret, throw, attempt, returnErr, getCaller,
      getGasLeft, currentTimestamp, burn, query, update, emit, record,
      setGasLeft, setState;
    cbn beta iota zeta delta [caller gasLeft state Time trace fst snd])).

(** Brings a trace built by successive appends into the form [t ++ l]. *)
Ltac flat := rewrite <- ?app_assoc; cbn [app].

(** Proves that a world reached by appending to the trace has the expected
    events or burns. *)
Ltac observed :=
  flat; rewrite ?events_app, ?burned_app; cbn; rewrite ?app_nil_r; reflexivity.

(** Uses the equation [E] for the store call or test that comes next. *)
Ltac next E := rewrite E; run.

(** ** Cancel *)

(** C9.  When the ticket is found and the caller is its beneficiary, Cancel
    calls the store's delete, then emits the canceled event whatever the
    delete returned, and only then returns the delete's error (or nil). *)
Theorem Cancel_emits_whatever_delete_returns
    {S R} `{retryables.Store S R} (ticketId : hash) (w : World S) (r : R)
    (outcome : result bool) (s' : S) :
  retryables.OpenRetryable ticketId (Uint64 (Time w)) (state w) = Ok (Some r) →
  retryables.Beneficiary r (state w) = Ok (caller w) →
  retryables.DeleteRetryable ticketId (state w) = (outcome, s') →
  Cancel ticketId w =
    (match outcome with Ok _ => Ok tt | Err e => Err e end,
     mkWorld (caller w) (gasLeft w) s' (Time w)
       (trace w ++ [Call OpOpenRetryable; Call OpBeneficiary;
                    Call OpDeleteRetryable; Emit (Canceled ticketId)])).
Proof.
  intros Hopen Hben Hdel. unfold Cancel. run.
  next Hopen. next Hben.
  rewrite bool_decide_eq_false_2 by (intros Hne; now apply Hne). run.
  next Hdel. flat. now destruct outcome.
Qed.

Lemma Cancel_emits_whatever_delete_returns_witness :
  let w := mkWorld 11 0 oneTicket 900 [] in
  @Cancel _ _ failingDelete 7 w =
    (Err (ErrStore OpDeleteRetryable),
     mkWorld 11 0 oneTicket 900
       [Call OpOpenRetryable; Call OpBeneficiary; Call OpDeleteRetryable;
        Emit (Canceled 7)]).
Proof.
  intros w.
  apply (@Cancel_emits_whatever_delete_returns _ _ failingDelete 7 w 7
           (Err (ErrStore OpDeleteRetryable)) oneTicket);
    reflexivity.
Defined.

(** ** The store of the specification, seen through the interface *)

Section SpecStore_facts.
Import SpecStore.
Implicit Types (s : RetryableState) (t : Retryable).

Lemma lookupLive_present ticketId now s t :
  present ticketId now s t → lookupLive ticketId now s = Some t.
Proof.
  intros [Hs Hlive]. unfold lookupLive, expired. rewrite Hs.
  destruct (Z.ltb_spec (timeout t) now); [lia | reflexivity].
Qed.

Lemma lookupLive_absent ticketId now s :
  absentOrExpired ticketId now s → lookupLive ticketId now s = None.
Proof.
  unfold lookupLive, expired. intros [Hs | (t & Hs & Hexp)]; rewrite Hs.
  - reflexivity.
  - destruct (Z.ltb_spec (timeout t) now); [reflexivity | lia].
Qed.

Lemma lookupLive_inv ticketId now s t :
  lookupLive ticketId now s = Some t → present ticketId now s t.
Proof.
  unfold lookupLive, expired, present. destruct (s !! ticketId) as [t0|]; [|discriminate].
  destruct (Z.ltb_spec (timeout t0) now); [discriminate|].
  intros [= ->]. split; [reflexivity | lia].
Qed.

Lemma open_present ticketId now s t :
  present ticketId now s t →
  retryables.OpenRetryable ticketId now s = Ok (Some ticketId).
Proof. intros Hp. cbn. unfold open. now rewrite (lookupLive_present _ _ _ _ Hp). Qed.

Lemma open_absent ticketId now s :
  absentOrExpired ticketId now s →
  retryables.OpenRetryable ticketId now s = Ok None.
Proof. intros Ha. cbn. unfold open. now rewrite (lookupLive_absent _ _ _ Ha). Qed.

Lemma size_present ticketId now s t :
  present ticketId now s t →
  retryables.RetryableSizeBytes ticketId now s = Ok (sizeBytes t).
Proof. intros Hp. cbn. unfold size. now rewrite (lookupLive_present _ _ _ _ Hp). Qed.

Lemma size_absent ticketId now s :
  absentOrExpired ticketId now s →
  retryables.RetryableSizeBytes ticketId now s = Ok 0.
Proof. intros Ha. cbn. unfold size. now rewrite (lookupLive_absent _ _ _ Ha). Qed.

Lemma beneficiary_stored ticketId s t :
  s !! ticketId = Some t →
  retryables.Beneficiary ticketId s = Ok (beneficiary t).
Proof. intros Hs. cbn. unfold readBeneficiary. now rewrite Hs. Qed.

Lemma timeout_stored ticketId s t :
  s !! ticketId = Some t →
  retryables.Timeout ticketId s = Ok (timeout t).
Proof. intros Hs. cbn. unfold readTimeout. now rewrite Hs. Qed.

End SpecStore_facts.

(** C3.  When the store opens the ticket (it is present and unexpired) and
    the caller is not its beneficiary, Cancel returns the authorization
    error.  The store is the one before the call, so the ticket is still
    there and unchanged; the store's delete has not been called and no event
    has been emitted. *)
Theorem Cancel_by_non_beneficiary
    {S R} `{retryables.Store S R} (ticketId : hash) (w : World S) (r : R)
    (beneficiary : addr) :
  retryables.OpenRetryable ticketId (Uint64 (Time w)) (state w) = Ok (Some r) →
  retryables.Beneficiary r (state w) = Ok beneficiary →
  caller w ≠ beneficiary →
  ∃ w', Cancel ticketId w =
          (Err (ErrorsNew "only the beneficiary may cancel a retryable"), w')
        ∧ w' = mkWorld (caller w) (gasLeft w) (state w) (Time w)
                 (trace w ++ [Call OpOpenRetryable; Call OpBeneficiary])
        ∧ untouched w w'
        ∧ retryables.OpenRetryable ticketId (Uint64 (Time w')) (state w')
          = Ok (Some r)
        ∧ retryables.Beneficiary r (state w') = Ok beneficiary.
Proof.
  intros Hopen Hben Hne. eexists. split; [|split; [reflexivity|]].
  - unfold Cancel. run. next Hopen. next Hben.
    rewrite bool_decide_eq_true_2 by exact Hne. flat. reflexivity.
  - cbn [state Time]. repeat split; try assumption. observed.
Qed.

(** Caller 12 tries to cancel ticket 7, whose beneficiary is 11. *)
Lemma Cancel_by_non_beneficiary_witness :
  ∃ w', Cancel 7 (mkWorld 12 0 oneTicket 900 []) =
          (Err (ErrorsNew "only the beneficiary may cancel a retryable"), w')
        ∧ w' = mkWorld 12 0 oneTicket 900
                 [Call OpOpenRetryable; Call OpBeneficiary]
        ∧ untouched (mkWorld 12 0 oneTicket 900 []) w'
        ∧ SpecStore.open 7 (Uint64 (Time w')) (state w') = Ok (Some 7)
        ∧ SpecStore.readBeneficiary 7 (state w') = Ok 11.
Proof.
  apply (@Cancel_by_non_beneficiary _ _ SpecStore.ticketStore 7
           (mkWorld 12 0 oneTicket 900 []) 7 11).
  - reflexivity.
  - reflexivity.
  - vm_compute; discriminate.
Defined.

(** ** Operations on a ticket that is absent or expired *)

Section Absent.
Context `{GasParams} `{retryables.Consts}.
Variable con : ArbRetryableTx.
Variable ticketId : hash.
Variable w : World SpecStore.RetryableState.
Hypothesis Habsent : absentOrExpired ticketId (Uint64 (Time w)) (state w).

Lemma Cancel_absent :
  fst (Cancel ticketId w) = Err NotFoundError
  ∧ untouched w (snd (Cancel ticketId w)).
Proof.
  unfold Cancel. run. next (open_absent _ _ _ Habsent).
  cbn [fst snd]. repeat split. observed.
Qed.

Lemma GetTimeout_absent :
  fst (GetTimeout ticketId w) = Err NotFoundError
  ∧ untouched w (snd (GetTimeout ticketId w)).
Proof.
  unfold GetTimeout. run. next (open_absent _ _ _ Habsent).
  cbn [fst snd]. repeat split. observed.
Qed.

Lemma GetBeneficiary_absent :
  fst (GetBeneficiary ticketId w) =
    (if gasLeft w <? wrap64 (2 * SloadGas) then Err ErrOutOfGas
     else Err NotFoundError)
  ∧ untouched w (snd (GetBeneficiary ticketId w)).
Proof.
  unfold GetBeneficiary. run.
  destruct (gasLeft w <? wrap64 (2 * SloadGas)); run.
  - now repeat split.
  - next (open_absent _ _ _ Habsent). cbn [fst snd]. repeat split. observed.
Qed.

Lemma Keepalive_absent :
  fst (Keepalive con ticketId w) =
    (if gasLeft w <? wrap64 (6 * SloadGas + 2 * SstoreSetGas
                             + LifetimeExtendedGasCost con ticketId 0)
     then Err ErrOutOfGas else Err NotFoundError)
  ∧ untouched w (snd (Keepalive con ticketId w)).
Proof.
  unfold Keepalive. run.
  destruct (gasLeft w <? _); run.
  - now repeat split.
  - next (size_absent _ _ _ Habsent).
    rewrite bool_decide_eq_true_2 by reflexivity. run.
    cbn [fst snd]. repeat split. observed.
Qed.

Lemma Redeem_absent :
  fst (Redeem con ticketId w) =
    (if gasLeft w <? wrap64 (5 * SloadGas + SstoreSetGas
                             + RedeemScheduledGasCost con ticketId ticketId
                                 0 0 (caller w))
     then Err ErrOutOfGas else Err NotFoundError)
  ∧ untouched w (snd (Redeem con ticketId w)).
Proof.
  unfold Redeem. run.
  destruct (Z.ltb_spec (gasLeft w)
              (wrap64 (5 * SloadGas + SstoreSetGas
                       + RedeemScheduledGasCost con ticketId ticketId 0 0
                           (caller w)))) as [Hlt | Hge]; run.
  - now repeat split.
  - next (size_absent _ _ _ Habsent).
    change (WordsForBytes 0) with 0. rewrite Z.mul_0_r.
    change (wrap64 0) with 0.
    destruct (Z.ltb_spec (gasLeft w - wrap64 (5 * SloadGas + SstoreSetGas
                + RedeemScheduledGasCost con ticketId ticketId 0 0 (caller w))) 0);
      [lia|]. run.
    next (open_absent _ _ _ Habsent). cbn [fst snd]. repeat split. observed.
Qed.

End Absent.

(** C4, as amended.  On a ticket that is absent or expired, Cancel and
    GetTimeout return the not-found error; GetBeneficiary, Keepalive and
    Redeem return the not-found error when the gas left covers the burn they
    start with, and the out-of-gas error when it does not.  None of the five
    changes the store or emits an event. *)
Theorem absent_ticket_not_found
    `{GasParams} `{retryables.Consts} (con : ArbRetryableTx)
    (ticketId : hash) (w : World SpecStore.RetryableState) :
  absentOrExpired ticketId (Uint64 (Time w)) (state w) →
  (fst (Cancel ticketId w) = Err NotFoundError
   ∧ untouched w (snd (Cancel ticketId w)))
  ∧ (fst (GetTimeout ticketId w) = Err NotFoundError
     ∧ untouched w (snd (GetTimeout ticketId w)))
  ∧ (fst (GetBeneficiary ticketId w) =
       (if gasLeft w <? wrap64 (2 * SloadGas) then Err ErrOutOfGas
        else Err NotFoundError)
     ∧ untouched w (snd (GetBeneficiary ticketId w)))
  ∧ (fst (Keepalive con ticketId w) =
       (if gasLeft w <? wrap64 (6 * SloadGas + 2 * SstoreSetGas
                                + LifetimeExtendedGasCost con ticketId 0)
        then Err ErrOutOfGas else Err NotFoundError)
     ∧ untouched w (snd (Keepalive con ticketId w)))
  ∧ (fst (Redeem con ticketId w) =
       (if gasLeft w <? wrap64 (5 * SloadGas + SstoreSetGas
                                + RedeemScheduledGasCost con ticketId ticketId
                                    0 0 (caller w))
        then Err ErrOutOfGas else Err NotFoundError)
     ∧ untouched w (snd (Redeem con ticketId w))).
Proof.
  intros Habsent. repeat apply conj.
  all: first [ apply Cancel_absent | apply GetTimeout_absent
             | apply GetBeneficiary_absent | apply Keepalive_absent
             | apply Redeem_absent ]; exact Habsent.
Qed.

Lemma absent_ticket_not_found_witness :
  let w := mkWorld 12 50000 (∅ : SpecStore.RetryableState) 900 [] in
  fst (@Keepalive gethParams sampleConsts _ _ SpecStore.ticketStore sampleCon 7 w)
    = Err NotFoundError
  ∧ fst (@Redeem gethParams sampleConsts _ _ SpecStore.ticketStore sampleCon 7 w)
    = Err NotFoundError.
Proof.
  intros w.
  destruct (@absent_ticket_not_found gethParams sampleConsts sampleCon 7 w)
    as (_ & _ & _ & [Hk _] & [Hr _]).
  - left. reflexivity.
  - split; [exact Hk | exact Hr].
Defined.

(** C4, as stated, fails: with 99 gas left, below the 100 that
    GetBeneficiary burns first, the call on an absent ticket returns the
    out-of-gas error, not the not-found error. *)
Lemma GetBeneficiary_absent_out_of_gas :
  let w := mkWorld 12 99 (∅ : SpecStore.RetryableState) 900 [] in
  absentOrExpired 7 (Uint64 (Time w)) (state w)
  ∧ fst (@GetBeneficiary gethParams _ _ SpecStore.ticketStore 7 w) = Err ErrOutOfGas
  ∧ fst (@GetBeneficiary gethParams _ _ SpecStore.ticketStore 7 w) ≠ Err NotFoundError.
Proof.
  intros w. split; [left; reflexivity|]. split; [reflexivity|].
  vm_compute. discriminate.
Qed.

(** ** Gas charged by Redeem and Keepalive, for any store *)

Lemma wrap64_small z : 0 ≤ z < 2 ^ 64 → wrap64 z = z.
Proof. intros Hz. unfold wrap64. now apply Z.mod_small. Qed.

Lemma wrap64_range z : 0 ≤ wrap64 z < 2 ^ 64.
Proof. unfold wrap64. apply Z.mod_pos_bound. lia. Qed.

(** [WordsForBytes n] is the least number of 32-byte words that hold [n]
    bytes. *)
Lemma WordsForBytes_ceil n :
  32 * (WordsForBytes n - 1) < n ≤ 32 * WordsForBytes n.
Proof.
  unfold WordsForBytes.
  pose proof (Z.div_mod (n + 31) 32 ltac:(lia)).
  pose proof (Z.mod_pos_bound (n + 31) 32 ltac:(lia)). lia.
Qed.

Section Gas.
Context `{GasParams} `{retryables.Consts} {S R : Type} `{retryables.Store S R}.
Variable con : ArbRetryableTx.
Variable ticketId : hash.


(** C7.  Keepalive first burns 6 SLOAD + 2 SSTORE-set + the cost of a
    lifetime-extended event; nothing else has happened by then.  It then
    reads the ticket's size, and for a size other than zero burns
    words(size) * SSTORE-set / 100, where words(n) = ceil(n / 32).  Only
    after both burns does it call the store's renewal, the first call that
    can change the store; nothing is burned after that. *)
Theorem Keepalive_burns_before_renewing (w : World S) :
  let fixed :=
    wrap64 (6 * SloadGas + 2 * SstoreSetGas
            + LifetimeExtendedGasCost con ticketId 0) in
  let updateCost nbytes := wrap64 (WordsForBytes nbytes * SstoreSetGas) / 100 in
  let afterSize :=
    mkWorld (caller w) (gasLeft w - fixed) (state w) (Time w)
            (trace w ++ [Burn fixed; Call OpRetryableSizeBytes]) in
  (if gasLeft w <? fixed then
     Keepalive con ticketId w = (Err ErrOutOfGas, w)
   else
     match retryables.RetryableSizeBytes ticketId (Uint64 (Time w)) (state w) with
     | Err e => Keepalive con ticketId w = (Err e, afterSize)
     | Ok nbytes =>
         if bool_decide (nbytes = 0) then
           Keepalive con ticketId w = (Err NotFoundError, afterSize)
         else if gasLeft w - fixed <? updateCost nbytes then
           Keepalive con ticketId w = (Err ErrOutOfGas, afterSize)
         else
           ∃ rest,
             trace (snd (Keepalive con ticketId w)) =
               trace w ++ [Burn fixed; Call OpRetryableSizeBytes;
                           Burn (updateCost nbytes); Call OpKeepalive] ++ rest
             ∧ omap burnOf rest = []
             ∧ gasLeft (snd (Keepalive con ticketId w)) =
                 gasLeft w - fixed - updateCost nbytes
     end)
  ∧ ∀ n, 32 * (WordsForBytes n - 1) < n ≤ 32 * WordsForBytes n.
Proof.
  intros fixed updateCost afterSize. split; [|apply WordsForBytes_ceil].
  unfold Keepalive. run. fold fixed.
  destruct (gasLeft w <? fixed); [reflexivity|]. run.
  destruct (retryables.RetryableSizeBytes _ _ _) as [nbytes|e]; run;
    [|subst afterSize; flat; reflexivity].
  destruct (bool_decide (nbytes = 0)); run;
    [subst afterSize; flat; reflexivity|].
  fold (updateCost nbytes).
  destruct (gasLeft w - fixed <? updateCost nbytes); run;
    [subst afterSize; flat; reflexivity|].
  repeat (case_match; simplify_eq; run); cbn [snd trace gasLeft]; flat;
    eexists; (split; [reflexivity|]); split; reflexivity.
Qed.

(** C2.  A successful Redeem burns three amounts: 5 SLOAD + SSTORE-set + the
    event cost, then words(size) * SLOAD, then all the gas that is left at
    that point.  The last amount is the gas carried by the redeem-scheduled
    event, the only event emitted; the three add up to the gas the caller
    came with, and none is left. *)
Theorem Redeem_forwards_what_it_burns (w w' : World S) (redeemTxId : hash) :
  Redeem con ticketId w = (Ok redeemTxId, w') →
  ∃ byteCount sequenceNum donated,
    let fixedAndEvent :=
      wrap64 (5 * SloadGas + SstoreSetGas
              + RedeemScheduledGasCost con ticketId ticketId 0 0 (caller w)) in
    let sized := wrap64 (SloadGas * WordsForBytes byteCount) in
    retryables.RetryableSizeBytes ticketId (Uint64 (Time w)) (state w)
      = Ok byteCount
    ∧ burned w' = burned w ++ [fixedAndEvent; sized; donated]
    ∧ donated = gasLeft w - fixedAndEvent - sized
    ∧ events w' =
        events w ++ [RedeemScheduled ticketId redeemTxId sequenceNum donated
                                     (caller w)]
    ∧ gasLeft w - gasLeft w' = fixedAndEvent + sized + donated
    ∧ gasLeft w' = 0.
Proof.
  unfold Redeem. run.
  repeat (case_match; simplify_eq; run); try discriminate.
  intros [= <- <-]. do 3 eexists. cbn zeta. split; [reflexivity|].
  cbn [gasLeft caller]. repeat split; first [observed | lia].
Qed.

End Gas.

(** ** Renewal and redemption on the store of the specification *)

Section SpecStore_writes.
Import SpecStore.
Implicit Types (s : RetryableState) (t : Retryable).

Lemma present_unique ticketId now s t t' :
  present ticketId now s t → present ticketId now s t' → t = t'.
Proof. intros [Hs _] [Hs' _]. congruence. Qed.

Lemma renew_present ticketId now newTimeout window s t :
  present ticketId now s t →
  retryables.Keepalive ticketId now newTimeout window s =
    (Ok tt, <[ticketId := renewed newTimeout t]> s).
Proof.
  intros Hp. cbn. unfold renew. now rewrite (lookupLive_present _ _ _ _ Hp).
Qed.

Lemma open_inv ticketId now s r :
  retryables.OpenRetryable ticketId now s = Ok (Some r) →
  r = ticketId ∧ ∃ t, present ticketId now s t.
Proof.
  cbn. unfold open. destruct (lookupLive ticketId now s) as [t|] eqn:E;
    intros [= <-]. split; [reflexivity|]. exists t. now apply lookupLive_inv.
Qed.

Lemma open_inserted ticketId now s t :
  retryables.OpenRetryable ticketId now (<[ticketId := t]> s) =
    Ok (if expired now t then None else Some ticketId).
Proof.
  cbn. unfold open, lookupLive. rewrite lookup_insert_eq.
  now destruct (expired now t).
Qed.

Lemma increment_stored ticketId s t :
  s !! ticketId = Some t →
  retryables.IncrementNumTries ticketId s =
    (Ok (numTries t + 1), <[ticketId := tried t]> s).
Proof. intros Hs. cbn. unfold incrementTries. now rewrite Hs. Qed.

End SpecStore_writes.

Section Lifecycle.
Import SpecStore.
Context `{GasParams} `{retryables.Consts}.
Variable con : ArbRetryableTx.
Variable ticketId : hash.
Implicit Types (w : World RetryableState) (t : Retryable).

(** What a successful Redeem did, read off the code path that succeeds. *)
Lemma Redeem_succeeded w w' redeemTxId :
  Redeem con ticketId w = (Ok redeemTxId, w') →
  ∃ t donated,
    present ticketId (Uint64 (Time w)) (state w) t
    ∧ state w' = <[ticketId := tried t]> (state w)
    ∧ redeemTxId = retryables.TxIdForRedeemAttempt ticketId (numTries t + 1)
    ∧ events w' =
        events w ++ [RedeemScheduled ticketId redeemTxId (numTries t + 1)
                                     donated (caller w)].
Proof.
  unfold Redeem. run.
  destruct (gasLeft w <? _); run; [discriminate|].
  destruct (retryables.RetryableSizeBytes _ _ _) as [byteCount|]; run;
    [|discriminate].
  destruct (_ <? wrap64 (SloadGas * WordsForBytes byteCount)); run;
    [discriminate|].
  destruct (retryables.OpenRetryable _ _ _) as [[r|]|] eqn:Hopen; run;
    try discriminate.
  apply open_inv in Hopen as [-> [t Hp]].
  next (increment_stored _ _ _ (proj1 Hp)).
  destruct (_ <? _); run; [discriminate|].
  intros [= <- <-]. exists t. eexists. split; [exact Hp|].
  cbn [state caller]. repeat split. observed.
Qed.

(** C5.  A successful Redeem of a present, unexpired ticket leaves its
    timeout and beneficiary (and size) as they were, adds one to numTries,
    leaves every other ticket alone, and emits one event, a redeem-scheduled
    event whose sequenceNum is the former numTries plus one. *)
Theorem Redeem_counts_one_try w w' t redeemTxId :
  present ticketId (Uint64 (Time w)) (state w) t →
  Redeem con ticketId w = (Ok redeemTxId, w') →
  (∃ t', state w' !! ticketId = Some t'
         ∧ timeout t' = timeout t
         ∧ beneficiary t' = beneficiary t
         ∧ sizeBytes t' = sizeBytes t
         ∧ numTries t' = numTries t + 1)
  ∧ (∀ other, other ≠ ticketId → state w' !! other = state w !! other)
  ∧ ∃ donated,
      events w' =
        events w ++ [RedeemScheduled ticketId redeemTxId (numTries t + 1)
                                     donated (caller w)].
Proof.
  intros Hp Hrun.
  destruct (Redeem_succeeded _ _ _ Hrun) as (t0 & donated & Hp0 & Hst & _ & Hev).
  rewrite (present_unique _ _ _ _ _ Hp Hp0). split; [|split].
  - exists (tried t0). rewrite Hst, lookup_insert_eq. now repeat split.
  - intros other Hother. rewrite Hst. now apply lookup_insert_ne.
  - now exists donated.
Qed.


(** C1, as amended.  A successful Keepalive of a present, unexpired ticket
    replaces the ticket's timeout by now + RetryableLifetimeSeconds,
    whatever the timeout was before, and changes nothing else in the store.
    The call returns, and emits in its lifetime-extended event, that timeout
    passed through [int64]: the timeout itself when it is below 2^63, and
    the timeout minus 2^64 when it is not. *)
Theorem Keepalive_resets_the_window w w' t newTimeout :
  present ticketId (Uint64 (Time w)) (state w) t →
  Keepalive con ticketId w = (Ok newTimeout, w') →
  let fresh := Uint64 (Time w) + retryables.RetryableLifetimeSeconds in
  state w' = <[ticketId := renewed fresh t]> (state w)
  ∧ timeout <$> state w' !! ticketId = Some fresh
  ∧ newTimeout = int64 fresh
  ∧ (fresh < 2 ^ 63 → newTimeout = fresh)
  ∧ (2 ^ 63 ≤ fresh → newTimeout = fresh - 2 ^ 64)
  ∧ events w' = events w ++ [LifetimeExtended ticketId newTimeout].
Proof.
  intros Hp. unfold Keepalive. run.
  destruct (gasLeft w <? _); run; [discriminate|].
  next (size_present _ _ _ _ Hp).
  destruct (bool_decide (sizeBytes t = 0)); run; [discriminate|].
  destruct (_ <? _); run; [discriminate|].
  next (renew_present ticketId (Uint64 (Time w))
          (wrap64 (Uint64 (Time w) + retryables.RetryableLifetimeSeconds))
          retryables.RetryableLifetimeSeconds _ _ Hp).
  next open_inserted.
  destruct (expired _ _) eqn:Hlive; run; [discriminate|].
  erewrite timeout_stored by apply lookup_insert_eq. run.
  intros [= <- <-]. cbn [state timeout renewed].
  (* the renewed ticket was found unexpired, so the sum did not wrap *)
  assert (wrap64 (Uint64 (Time w) + retryables.RetryableLifetimeSeconds)
          = Uint64 (Time w) + retryables.RetryableLifetimeSeconds) as Hsum.
  { pose proof (wrap64_range (Z.abs (Time w))) as Hnow.
    fold (Uint64 (Time w)) in Hnow.
    pose proof retryables.RetryableLifetimeSeconds_fits as HL.
    unfold expired in Hlive. cbn [timeout renewed] in Hlive.
    apply Z.ltb_ge in Hlive. unfold wrap64 in Hlive |- *.
    destruct (Z.lt_ge_cases
                (Uint64 (Time w) + retryables.RetryableLifetimeSeconds)
                (2 ^ 64)) as [Hfit | Hwrap].
    - apply Z.mod_small. lia.
    - assert ((Uint64 (Time w) + retryables.RetryableLifetimeSeconds)
              mod 2 ^ 64
              = Uint64 (Time w) + retryables.RetryableLifetimeSeconds - 2 ^ 64)
        as Hmod by (symmetry; apply Z.mod_unique with (q := 1); lia).
      rewrite Hmod in Hlive. lia. }
  pose proof (wrap64_range
                (Uint64 (Time w) + retryables.RetryableLifetimeSeconds))
    as Hrange.
  rewrite Hsum in Hrange |- *.
  split; [reflexivity|]. split; [now rewrite lookup_insert_eq|].
  split; [reflexivity|].
  assert (int64 (Uint64 (Time w) + retryables.RetryableLifetimeSeconds)
          = if Uint64 (Time w) + retryables.RetryableLifetimeSeconds <? 2 ^ 63
            then Uint64 (Time w) + retryables.RetryableLifetimeSeconds
            else Uint64 (Time w) + retryables.RetryableLifetimeSeconds - 2 ^ 64)
    as Hcast by (unfold int64; now rewrite wrap64_small by exact Hrange).
  split; [|split; [|observed]]; intros Hside; rewrite Hcast;
    destruct (Z.ltb_spec
                (Uint64 (Time w) + retryables.RetryableLifetimeSeconds)
                (2 ^ 63)); lia.
Qed.

End Lifecycle.

(** ** The fee collector of an aggregator *)

(** C8.  With [collector] the aggregator's current fee collector,
    SetFeeCollector succeeds when the caller is the aggregator or
    [collector], and then every later GetFeeCollector of that aggregator
    returns the new collector; for any other caller it returns the
    authorization error, does not call the registry's setter, and the
    aggregator's fee collector stays [collector]. *)
Theorem SetFeeCollector_is_for_aggregator_and_collector
    (aggregator newFeeCollector collector : addr)
    (w : World SpecRegistry.L1PricingState) :
  fst (GetFeeCollector aggregator w) = Ok collector →
  (caller w = aggregator ∨ caller w = collector →
   ∃ w', SetFeeCollector aggregator newFeeCollector w = (Ok tt, w')
         ∧ ∀ v, state v = state w' →
                fst (GetFeeCollector aggregator v) = Ok newFeeCollector)
  ∧ (caller w ≠ aggregator ∧ caller w ≠ collector →
     ∃ w', SetFeeCollector aggregator newFeeCollector w =
             (Err (ErrorsNew
                     "non-authorized c.caller in ArbAggregator.SetFeeCollector"),
              w')
           ∧ state w' = state w
           ∧ trace w' = trace w ++ [Call OpAggregatorFeeCollector]
           ∧ ∀ v, state v = state w' →
                  fst (GetFeeCollector aggregator v) = Ok collector).
Proof.
  unfold GetFeeCollector, SetFeeCollector. run.
  cbn [l1pricing.AggregatorFeeCollector l1pricing.SetAggregatorFeeCollector
       SpecRegistry.registry].
  unfold SpecRegistry.feeCollector, SpecRegistry.setFeeCollector.
  intros [= Hcol]. split.
  - intros Hauth. eexists. split.
    + run. rewrite Hcol.
      replace (bool_decide (caller w ≠ aggregator)
               && bool_decide (caller w ≠ collector)) with false; [run; reflexivity|].
      symmetry. apply andb_false_iff.
      destruct Hauth as [Ha | Hc]; [left | right];
        apply bool_decide_eq_false_2; intros Hne; now apply Hne.
    + intros v ->. cbn. now rewrite lookup_insert_eq.
  - intros [Ha Hc]. eexists. split; [|split; [|split]].
    + run. rewrite Hcol.
      rewrite !bool_decide_eq_true_2 by assumption. reflexivity.
    + reflexivity.
    + reflexivity.
    + intros v ->. cbn. now rewrite Hcol.
Qed.

(** Aggregator 1 has fee collector 2; caller 2 hands the role to 3. *)
Lemma SetFeeCollector_is_for_aggregator_and_collector_witness :
  let registry := SpecRegistry.mkL1PricingState {[ 1 := 2 ]} ∅ ∅ 0 in
  ∃ w', SetFeeCollector 1 3 (mkWorld 2 0 registry 900 []) = (Ok tt, w')
        ∧ ∀ v, state v = state w' → fst (GetFeeCollector 1 v) = Ok 3.
Proof.
  intros registry.
  apply (SetFeeCollector_is_for_aggregator_and_collector 1 3 2
           (mkWorld 2 0 registry 900 [])).
  - reflexivity.
  - right. reflexivity.
Defined.

(** ** The theorems at work on the one-ticket store *)

(** A ticket expiring at 1000 is renewed at time 900 with a window of 600
    seconds: the call returns 1500 and the ticket now expires at 1500. *)
Lemma Keepalive_resets_the_window_witness :
  let w := mkWorld 12 100000 oneTicket 900 [] in
  let w' := snd (@Keepalive gethParams sampleConsts _ _ SpecStore.ticketStore
                            sampleCon 7 w) in
  SpecStore.timeout <$> state w' !! 7 = Some 1500
  ∧ events w' = [LifetimeExtended 7 1500].
Proof.
  intros w w'.
  destruct (@Keepalive_resets_the_window gethParams sampleConsts sampleCon 7
              w w' (SpecStore.mkRetryable 11 100 0 1000) 1500)
    as (_ & Htimeout & _ & _ & _ & Hevents).
  - split; [reflexivity | vm_compute; discriminate].
  - vm_compute. reflexivity.
  - split; [exact Htimeout | exact Hevents].
Defined.

(** With 100000 gas, Redeem of the 100-byte ticket burns 22518, then 200,
    and forwards the remaining 77282. *)
Lemma Redeem_forwards_what_it_burns_witness :
  let w := mkWorld 12 100000 oneTicket 900 [] in
  let w' := snd (@Redeem gethParams sampleConsts _ _ SpecStore.ticketStore
                         sampleCon 7 w) in
  ∃ byteCount sequenceNum donated,
    retryables.RetryableSizeBytes 7 900 oneTicket = Ok byteCount
    ∧ burned w' = [22518; wrap64 (50 * WordsForBytes byteCount); donated]
    ∧ donated = 100000 - 22518 - wrap64 (50 * WordsForBytes byteCount)
    ∧ events w' = [RedeemScheduled 7 (7 * 2 ^ 64 + 1) sequenceNum donated 12]
    ∧ 100000 - gasLeft w' =
        22518 + wrap64 (50 * WordsForBytes byteCount) + donated
    ∧ gasLeft w' = 0.
Proof.
  intros w w'.
  apply (@Redeem_forwards_what_it_burns gethParams sampleConsts _ _
           SpecStore.ticketStore sampleCon 7 w w' (7 * 2 ^ 64 + 1)).
  vm_compute. reflexivity.
Defined.

Lemma Redeem_counts_one_try_witness :
  let w := mkWorld 12 100000 oneTicket 900 [] in
  let w' := snd (@Redeem gethParams sampleConsts _ _ SpecStore.ticketStore
                         sampleCon 7 w) in
  state w' !! 7 = Some (SpecStore.mkRetryable 11 100 1 1000)
  ∧ ∃ donated,
      events w' = [RedeemScheduled 7 (7 * 2 ^ 64 + 1) 1 donated 12].
Proof.
  intros w w'.
  destruct (@Redeem_counts_one_try gethParams sampleConsts sampleCon 7 w w'
              (SpecStore.mkRetryable 11 100 0 1000) (7 * 2 ^ 64 + 1))
    as (_ & _ & Hevents).
  - split; [reflexivity | vm_compute; discriminate].
  - vm_compute. reflexivity.
  - split; [reflexivity | exact Hevents].
Defined.


(** ** Scenarios of the specification, run on the model *)

(** Scenario A: the beneficiary cancels the ticket; a later GetBeneficiary
    finds nothing. *)
Example scenario_A :
  let w := mkWorld 11 100000 oneTicket 900 [] in
  let w' := snd (Cancel 7 w) in
  fst (Cancel 7 w) = Ok tt
  ∧ events w' = [Canceled 7]
  ∧ fst (@GetBeneficiary gethParams _ _ SpecStore.ticketStore 7 w')
    = Err NotFoundError.
Proof. vm_compute. repeat split. Qed.

(** Scenario B: timeout 1000, Keepalive at time 900 with a window of 600
    returns 1500, and GetTimeout then returns 1500. *)
Example scenario_B :
  let w := mkWorld 12 100000 oneTicket 900 [] in
  let w' := snd (@Keepalive gethParams sampleConsts _ _ SpecStore.ticketStore
                            sampleCon 7 w) in
  fst (@Keepalive gethParams sampleConsts _ _ SpecStore.ticketStore
                  sampleCon 7 w) = Ok 1500
  ∧ fst (GetTimeout 7 w') = Ok 1500.
Proof. vm_compute. repeat split. Qed.

(** Scenario D: another caller's Cancel is refused and the ticket can still
    be read. *)
Example scenario_D :
  let w := mkWorld 12 100000 oneTicket 900 [] in
  let w' := snd (Cancel 7 w) in
  fst (Cancel 7 w)
    = Err (ErrorsNew "only the beneficiary may cancel a retryable")
  ∧ fst (@GetBeneficiary gethParams _ _ SpecStore.ticketStore 7 w') = Ok 11.
Proof. vm_compute. repeat split. Qed.

(** * Further properties of the precompile methods *)

(** ** Reads of a ticket, for any store *)

Lemma int64_small t : 0 ≤ t < 2 ^ 63 → int64 t = t.
Proof.
  intros Ht. unfold int64. rewrite wrap64_small by lia.
  destruct (Z.ltb_spec t (2 ^ 63)); lia.
Qed.

Lemma int64_large t : 2 ^ 63 ≤ t < 2 ^ 64 → int64 t = t - 2 ^ 64.
Proof.
  intros Ht. unfold int64. rewrite wrap64_small by lia.
  destruct (Z.ltb_spec t (2 ^ 63)); lia.
Qed.

Section Reads.
Context `{GasParams} {S R : Type} `{retryables.Store S R}.
Variable ticketId : hash.

(** X1.  GetBeneficiary costs 2 SLOAD whatever it finds: with less gas left
    it is out of gas before any store call; otherwise exactly that amount is
    burned, the store and the log are left alone, and the result is the
    store's error if the open fails, not-found if the ticket is absent, and
    otherwise what the ticket's beneficiary read returns. *)
Theorem GetBeneficiary_costs_two_sloads (w : World S) :
  let cost := wrap64 (2 * SloadGas) in
  if gasLeft w <? cost then
    GetBeneficiary ticketId w = (Err ErrOutOfGas, w)
  else
    ∃ w', GetBeneficiary ticketId w =
            (match retryables.OpenRetryable ticketId (Uint64 (Time w)) (state w) with
             | Err e => Err e
             | Ok None => Err NotFoundError
             | Ok (Some r) => retryables.Beneficiary r (state w)
             end, w')
          ∧ gasLeft w' = gasLeft w - cost
          ∧ burned w' = burned w ++ [cost]
          ∧ untouched w w'.
Proof.
  intros cost. unfold GetBeneficiary. run. fold cost.
  destruct (gasLeft w <? cost); [reflexivity|]. run.
  destruct (retryables.OpenRetryable _ _ _) as [[r|]|e]; run;
    (eexists; split; [reflexivity|]); cbn [gasLeft state];
    (split; [reflexivity|]); (split; [observed|]); split;
    first [reflexivity | observed].
Qed.

(** X2.  GetTimeout burns no gas and leaves the store and the log alone.
    It returns the ticket's uint64 timeout converted by [int64]: the timeout
    itself below 2^63, and the negative number timeout - 2^64 from 2^63
    on. *)
Theorem GetTimeout_returns_the_timeout_as_int64 (w : World S) (r : R) (t : Z) :
  retryables.OpenRetryable ticketId (Uint64 (Time w)) (state w) = Ok (Some r) →
  retryables.Timeout r (state w) = Ok t →
  0 ≤ t < 2 ^ 64 →
  ∃ w', GetTimeout ticketId w =
          (Ok (if t <? 2 ^ 63 then t else t - 2 ^ 64), w')
        ∧ gasLeft w' = gasLeft w
        ∧ burned w' = burned w
        ∧ untouched w w'.
Proof.
  intros Hopen Htimeout Ht. unfold GetTimeout. run. next Hopen. next Htimeout.
  eexists. split.
  - f_equal. f_equal.
    destruct (Z.ltb_spec t (2 ^ 63)); [apply int64_small | apply int64_large]; lia.
  - cbn [gasLeft state]. split; [reflexivity|]. split; [observed|].
    split; [reflexivity | observed].
Qed.

(** X3.  Cancel never burns gas.  Either it fails without touching the store
    or the log, or it has called the store's delete, left the store as the
    delete left it, emitted exactly the canceled event of this ticket, and
    returns the delete's error. *)
Theorem Cancel_is_free_and_emits_only_after_delete (w : World S) :
  let w' := snd (Cancel ticketId w) in
  gasLeft w' = gasLeft w
  ∧ burned w' = burned w
  ∧ ((untouched w w' ∧ ∃ e, fst (Cancel ticketId w) = Err e)
     ∨ ∃ outcome,
         retryables.DeleteRetryable ticketId (state w) = (outcome, state w')
         ∧ events w' = events w ++ [Canceled ticketId]
         ∧ fst (Cancel ticketId w) = withoutValue outcome).
Proof.
  unfold Cancel. run.
  repeat (case_match; simplify_eq; run); cbn [fst snd gasLeft state];
    (split; [reflexivity|]); (split; [observed|]);
    first [ left; split; [split; [reflexivity | observed] | eexists; reflexivity]
          | right; eexists; split; [reflexivity|]; split;
            [observed | reflexivity] ].
Qed.

End Reads.

(** A ticket expiring at 2^63 + 5 is reported as expiring at 5 - 2^63. *)
Lemma GetTimeout_returns_the_timeout_as_int64_witness :
  ∃ w', GetTimeout 7 (mkWorld 12 0 farTicket 900 []) = (Ok (5 - 2 ^ 63), w')
        ∧ gasLeft w' = 0
        ∧ burned w' = []
        ∧ untouched (mkWorld 12 0 farTicket 900 []) w'.
Proof.
  apply (@GetTimeout_returns_the_timeout_as_int64 _ _ SpecStore.ticketStore 7
           (mkWorld 12 0 farTicket 900 []) 7 (2 ^ 63 + 5)).
  - reflexivity.
  - reflexivity.
  - lia.
Defined.

(** ** Failing reads, and who may cancel, for any store *)

Section Errors.
Context `{GasParams} `{retryables.Consts} {S R : Type} `{retryables.Store S R}.
Variable con : ArbRetryableTx.
Variable ticketId : hash.

(** X4.  An error of the store's open is returned as it is by Cancel and by
    GetTimeout, and by GetBeneficiary once its 2 SLOAD are paid; none of the
    three changes the store or emits an event on the way. *)
Theorem open_errors_are_returned (w : World S) (e : error) :
  retryables.OpenRetryable ticketId (Uint64 (Time w)) (state w) = Err e →
  (fst (Cancel ticketId w) = Err e ∧ untouched w (snd (Cancel ticketId w)))
  ∧ (fst (GetTimeout ticketId w) = Err e
     ∧ untouched w (snd (GetTimeout ticketId w)))
  ∧ (fst (GetBeneficiary ticketId w) =
       (if gasLeft w <? wrap64 (2 * SloadGas) then Err ErrOutOfGas else Err e)
     ∧ untouched w (snd (GetBeneficiary ticketId w))).
Proof.
  intros Hopen. repeat apply conj.
  - unfold Cancel. run. next Hopen. reflexivity.
  - unfold Cancel. run. next Hopen. reflexivity.
  - unfold Cancel. run. next Hopen. cbn [snd]. observed.
  - unfold GetTimeout. run. next Hopen. reflexivity.
  - unfold GetTimeout. run. next Hopen. reflexivity.
  - unfold GetTimeout. run. next Hopen. cbn [snd]. observed.
  - unfold GetBeneficiary. run. destruct (gasLeft w <? _); run;
      [reflexivity | next Hopen; reflexivity].
  - unfold GetBeneficiary. run. destruct (gasLeft w <? _); run;
      [reflexivity | next Hopen; reflexivity].
  - unfold GetBeneficiary. run. destruct (gasLeft w <? _); run;
      [reflexivity | next Hopen; cbn [snd]; observed].
Qed.

(** X5.  An error of the store's size read is returned as it is by Keepalive
    and by Redeem once their first burn is paid; neither changes the store
    or emits an event, and Redeem has burned nothing beyond that first
    amount. *)
Theorem size_errors_are_returned (w : World S) (e : error) :
  retryables.RetryableSizeBytes ticketId (Uint64 (Time w)) (state w) = Err e →
  let keepaliveFirst :=
    wrap64 (6 * SloadGas + 2 * SstoreSetGas
            + LifetimeExtendedGasCost con ticketId 0) in
  let redeemFirst :=
    wrap64 (5 * SloadGas + SstoreSetGas
            + RedeemScheduledGasCost con ticketId ticketId 0 0 (caller w)) in
  (fst (Keepalive con ticketId w) =
     (if gasLeft w <? keepaliveFirst then Err ErrOutOfGas else Err e)
   ∧ untouched w (snd (Keepalive con ticketId w)))
  ∧ (fst (Redeem con ticketId w) =
       (if gasLeft w <? redeemFirst then Err ErrOutOfGas else Err e)
     ∧ untouched w (snd (Redeem con ticketId w))
     ∧ burned (snd (Redeem con ticketId w)) =
         burned w ++ (if gasLeft w <? redeemFirst then [] else [redeemFirst])).
Proof.
  intros Hsize keepaliveFirst redeemFirst. repeat apply conj.
  - unfold Keepalive. run. fold keepaliveFirst.
    destruct (gasLeft w <? keepaliveFirst); run;
      [reflexivity | next Hsize; reflexivity].
  - unfold Keepalive. run. destruct (gasLeft w <? _); run;
      [reflexivity | next Hsize; reflexivity].
  - unfold Keepalive. run. destruct (gasLeft w <? _); run;
      [reflexivity | next Hsize; cbn [snd]; observed].
  - unfold Redeem. run. fold redeemFirst.
    destruct (gasLeft w <? redeemFirst); run;
      [reflexivity | next Hsize; reflexivity].
  - unfold Redeem. run. destruct (gasLeft w <? _); run;
      [reflexivity | next Hsize; reflexivity].
  - unfold Redeem. run. destruct (gasLeft w <? _); run;
      [reflexivity | next Hsize; cbn [snd]; observed].
  - unfold Redeem. run. fold redeemFirst.
    destruct (gasLeft w <? redeemFirst); run;
      [cbn [snd]; now rewrite app_nil_r | next Hsize; cbn [snd]; observed].
Qed.

(** X6.  The address GetBeneficiary reports is the only one that gets past
    Cancel's check: on the same store at the same time, Cancel by any other
    caller returns the authorization error and leaves the store and the log
    alone, and Cancel by that address calls the store's delete, emits the
    canceled event and returns the delete's error. *)
Theorem only_the_reported_beneficiary_cancels
    (w w1 v : World S) (beneficiary : addr) :
  GetBeneficiary ticketId w = (Ok beneficiary, w1) →
  state v = state w →
  Time v = Time w →
  (caller v ≠ beneficiary →
   fst (Cancel ticketId v)
     = Err (ErrorsNew "only the beneficiary may cancel a retryable")
   ∧ untouched v (snd (Cancel ticketId v)))
  ∧ (caller v = beneficiary →
     ∃ outcome,
       retryables.DeleteRetryable ticketId (state v)
         = (outcome, state (snd (Cancel ticketId v)))
       ∧ fst (Cancel ticketId v) = withoutValue outcome
       ∧ events (snd (Cancel ticketId v)) = events v ++ [Canceled ticketId]).
Proof.
  unfold GetBeneficiary. run.
  destruct (gasLeft w <? _); run; [discriminate|].
  destruct (retryables.OpenRetryable _ _ _) as [[r|]|] eqn:Hopen; run;
    try discriminate.
  destruct (retryables.Beneficiary r (state w)) as [b|] eqn:Hben;
    [|discriminate].
  intros [= -> _] Hstate Htime. unfold Cancel. run.
  rewrite Hstate, Htime. next Hopen. next Hben. split.
  - intros Hne. rewrite bool_decide_eq_true_2 by exact Hne. cbn [fst snd].
    split; [reflexivity|]. split; [exact (eq_sym Hstate) | observed].
  - intros Heq. rewrite bool_decide_eq_false_2 by (intros Hne; now apply Hne).
    run.
    destruct (retryables.DeleteRetryable ticketId (state w)) as [outcome s'].
    run. exists outcome.
    destruct outcome; cbn [fst snd state]; (split; [reflexivity|]);
      (split; [reflexivity | observed]).
Qed.

End Errors.

Lemma open_errors_are_returned_witness :
  fst (@Cancel _ _ unreadable 7 (mkWorld 11 100 oneTicket 900 []))
    = Err (ErrStore OpOpenRetryable)
  ∧ fst (@GetBeneficiary gethParams _ _ unreadable 7
           (mkWorld 11 100 oneTicket 900 []))
    = Err (ErrStore OpOpenRetryable).
Proof.
  destruct (@open_errors_are_returned gethParams _ _ unreadable 7
              (mkWorld 11 100 oneTicket 900 []) (ErrStore OpOpenRetryable))
    as ([Hcancel _] & _ & [Hget _]).
  - reflexivity.
  - split; [exact Hcancel | exact Hget].
Defined.

Lemma size_errors_are_returned_witness :
  fst (@Redeem gethParams sampleConsts _ _ unreadable sampleCon 7
         (mkWorld 11 100000 oneTicket 900 []))
    = Err (ErrStore OpRetryableSizeBytes)
  ∧ burned (snd (@Redeem gethParams sampleConsts _ _ unreadable sampleCon 7
                   (mkWorld 11 100000 oneTicket 900 []))) = [22518].
Proof.
  destruct (@size_errors_are_returned gethParams sampleConsts _ _ unreadable
              sampleCon 7 (mkWorld 11 100000 oneTicket 900 [])
              (ErrStore OpRetryableSizeBytes))
    as (_ & Hredeem & _ & Hburned).
  - reflexivity.
  - split; [exact Hredeem | exact Hburned].
Defined.

(** GetBeneficiary reports 11 for ticket 7; caller 11 then cancels it. *)
Lemma only_the_reported_beneficiary_cancels_witness :
  let w := mkWorld 12 100 oneTicket 900 [] in
  let v := mkWorld 11 0 oneTicket 900 [] in
  ∃ outcome,
    SpecStore.delete 7 oneTicket = (outcome, state (snd (Cancel 7 v)))
    ∧ fst (Cancel 7 v) = withoutValue outcome
    ∧ events (snd (Cancel 7 v)) = [Canceled 7].
Proof.
  intros w v.
  apply (@only_the_reported_beneficiary_cancels gethParams _ _
           SpecStore.ticketStore 7 w
           (snd (@GetBeneficiary gethParams _ _ SpecStore.ticketStore 7 w))
           v 11).
  - vm_compute. reflexivity.
  - reflexivity.
  - reflexivity.
  - reflexivity.
Defined.

(** ** Keepalive and Redeem, for any store *)

(** Turns the outcomes of the gas tests in the context into inequalities and
    records that the amounts burned are not negative. *)
Ltac amounts :=
  repeat match goal with
         | H : (_ <? _) = false |- _ => apply Z.ltb_ge in H
         | H : (_ <? _) = true |- _ => apply Z.ltb_lt in H
         end;
  repeat match goal with
         | H : context [wrap64 ?x] |- _ =>
             lazymatch goal with
             | _ : 0 ≤ wrap64 x < 2 ^ 64 |- _ => fail
             | _ => pose proof (wrap64_range x)
             end
         end;
  repeat match goal with
         | H : context [wrap64 ?x / 100] |- _ =>
             lazymatch goal with
             | _ : 0 ≤ wrap64 x / 100 |- _ => fail
             | _ => assert (0 ≤ wrap64 x / 100)
                      by (apply Z.div_pos; [apply wrap64_range | lia])
             end
         end.

Section Tickets.
Context `{GasParams} `{retryables.Consts} {S R : Type} `{retryables.Store S R}.
Variable con : ArbRetryableTx.
Variable ticketId : hash.

(** What a successful Keepalive did, read off the one path that succeeds. *)
Lemma Keepalive_succeeded (w w' : World S) (newTimeout : Z) :
  Keepalive con ticketId w = (Ok newTimeout, w') →
  let now := Uint64 (Time w) in
  let fixed :=
    wrap64 (6 * SloadGas + 2 * SstoreSetGas
            + LifetimeExtendedGasCost con ticketId 0) in
  ∃ nbytes s' r t,
    retryables.RetryableSizeBytes ticketId now (state w) = Ok nbytes
    ∧ nbytes ≠ 0
    ∧ retryables.Keepalive ticketId now
        (wrap64 (now + retryables.RetryableLifetimeSeconds))
        retryables.RetryableLifetimeSeconds (state w) = (Ok tt, s')
    ∧ retryables.OpenRetryable ticketId now s' = Ok (Some r)
    ∧ retryables.Timeout r s' = Ok t
    ∧ newTimeout = int64 t
    ∧ w' = mkWorld (caller w)
             (gasLeft w - fixed
              - wrap64 (WordsForBytes nbytes * SstoreSetGas) / 100)
             s' (Time w)
             (trace w ++
              [Burn fixed; Call OpRetryableSizeBytes;
               Burn (wrap64 (WordsForBytes nbytes * SstoreSetGas) / 100);
               Call OpKeepalive; Call OpOpenRetryable; Call OpTimeout;
               Emit (LifetimeExtended ticketId newTimeout)]).
Proof.
  unfold Keepalive. run.
  destruct (gasLeft w <? _); run; [discriminate|].
  destruct (retryables.RetryableSizeBytes _ _ _) as [nbytes|]; run;
    [|discriminate].
  destruct (bool_decide (nbytes = 0)) eqn:Hzero; run; [discriminate|].
  destruct (_ <? _); run; [discriminate|].
  destruct (retryables.Keepalive _ _ _ _ _) as [[[]|] s'] eqn:Hrenew; run;
    [|discriminate].
  destruct (retryables.OpenRetryable ticketId _ s') as [[r|]|] eqn:Hopen; run;
    try discriminate.
  destruct (retryables.Timeout r s') as [t|] eqn:Htimeout; run; [|discriminate].
  intros [= <- <-]. exists nbytes, s', r, t.
  apply bool_decide_eq_false in Hzero. flat. now repeat split.
Qed.

(** X7.  What a successful Keepalive returns is not the window it computed
    but the timeout the store reports when the ticket is opened again after
    the renewal, converted by [int64]; the lifetime-extended event, the only
    event emitted, carries the same number.  The call has burned its two
    amounts and nothing else, and the store is as the renewal left it. *)
Theorem Keepalive_reports_what_the_store_holds
    (w w' : World S) (newTimeout : Z) :
  Keepalive con ticketId w = (Ok newTimeout, w') →
  let now := Uint64 (Time w) in
  let fixed :=
    wrap64 (6 * SloadGas + 2 * SstoreSetGas
            + LifetimeExtendedGasCost con ticketId 0) in
  ∃ nbytes r t,
    retryables.RetryableSizeBytes ticketId now (state w) = Ok nbytes
    ∧ retryables.Keepalive ticketId now
        (wrap64 (now + retryables.RetryableLifetimeSeconds))
        retryables.RetryableLifetimeSeconds (state w) = (Ok tt, state w')
    ∧ retryables.OpenRetryable ticketId now (state w') = Ok (Some r)
    ∧ retryables.Timeout r (state w') = Ok t
    ∧ newTimeout = int64 t
    ∧ events w' = events w ++ [LifetimeExtended ticketId newTimeout]
    ∧ burned w' =
        burned w ++ [fixed; wrap64 (WordsForBytes nbytes * SstoreSetGas) / 100]
    ∧ gasLeft w' =
        gasLeft w - fixed - wrap64 (WordsForBytes nbytes * SstoreSetGas) / 100.
Proof.
  intros Hrun now fixed.
  destruct (Keepalive_succeeded _ _ _ Hrun)
    as (nbytes & s' & r & t & Hsize & _ & Hrenew & Hopen & Ht & Hv & Hw').
  clear Hrun. subst w'. exists nbytes, r, t. cbn [state gasLeft].
  repeat split; try assumption; observed.
Qed.

(** X8.  After a successful Keepalive, GetTimeout in the world it left (or
    any world with that store and that block time) returns the value
    Keepalive returned. *)
Theorem GetTimeout_after_Keepalive (w w' v : World S) (newTimeout : Z) :
  Keepalive con ticketId w = (Ok newTimeout, w') →
  state v = state w' →
  Time v = Time w →
  fst (GetTimeout ticketId v) = Ok newTimeout.
Proof.
  intros Hrun Hstate Htime.
  destruct (Keepalive_succeeded _ _ _ Hrun)
    as (nbytes & s' & r & t & _ & _ & _ & Hopen & Ht & Hv & Hw').
  clear Hrun. subst newTimeout w'. cbn [state] in Hstate. unfold GetTimeout. run.
  rewrite Hstate, Htime. next Hopen. next Ht. reflexivity.
Qed.

(** X9.  A Keepalive that fails emits no event, and changes the store only
    if it got as far as the store's renewal: otherwise the store is the one
    before the call. *)
Theorem Keepalive_failed_emits_nothing (w w' : World S) (e : error) :
  Keepalive con ticketId w = (Err e, w') →
  events w' = events w
  ∧ (state w' = state w
     ∨ ∃ outcome,
         retryables.Keepalive ticketId (Uint64 (Time w))
           (wrap64 (Uint64 (Time w) + retryables.RetryableLifetimeSeconds))
           retryables.RetryableLifetimeSeconds (state w)
         = (outcome, state w')).
Proof.
  unfold Keepalive. run.
  repeat (case_match; simplify_eq; run); try discriminate;
    intros [= <- <-]; cbn [state]; (split; [observed|]);
    first [left; reflexivity | right; eexists; reflexivity].
Qed.

(** What a successful Redeem did, for any store. *)
Lemma Redeem_succeeded_on_any_store (w w' : World S) (redeemTxId : hash) :
  Redeem con ticketId w = (Ok redeemTxId, w') →
  let now := Uint64 (Time w) in
  let first :=
    wrap64 (5 * SloadGas + SstoreSetGas
            + RedeemScheduledGasCost con ticketId ticketId 0 0 (caller w)) in
  ∃ byteCount r sequenceNum s',
    retryables.RetryableSizeBytes ticketId now (state w) = Ok byteCount
    ∧ retryables.OpenRetryable ticketId now (state w) = Ok (Some r)
    ∧ retryables.IncrementNumTries r (state w) = (Ok sequenceNum, s')
    ∧ redeemTxId = retryables.TxIdForRedeemAttempt ticketId sequenceNum
    ∧ first + wrap64 (SloadGas * WordsForBytes byteCount) ≤ gasLeft w
    ∧ let donated :=
        gasLeft w - first - wrap64 (SloadGas * WordsForBytes byteCount) in
      w' = mkWorld (caller w) 0 s' (Time w)
             (trace w ++
              [Burn first; Call OpRetryableSizeBytes;
               Burn (wrap64 (SloadGas * WordsForBytes byteCount));
               Call OpOpenRetryable; Call OpIncrementNumTries;
               Emit (RedeemScheduled ticketId redeemTxId sequenceNum donated
                                     (caller w));
               Burn donated]).
Proof.
  unfold Redeem. run.
  destruct (gasLeft w <? _); run; [discriminate|].
  destruct (retryables.RetryableSizeBytes _ _ _) as [byteCount|]; run;
    [|discriminate].
  destruct (Z.ltb_spec (gasLeft w - wrap64 (5 * SloadGas + SstoreSetGas
              + RedeemScheduledGasCost con ticketId ticketId 0 0 (caller w)))
              (wrap64 (SloadGas * WordsForBytes byteCount))) as [|Hpaid]; run;
    [discriminate|].
  destruct (retryables.OpenRetryable _ _ _) as [[r|]|]; run; try discriminate.
  destruct (retryables.IncrementNumTries r (state w)) as [[sequenceNum|] s']
    eqn:Hincr; run; [|discriminate].
  destruct (_ <? _); run; [discriminate|].
  intros [= <- <-]. exists byteCount, r, sequenceNum, s'. cbn zeta. flat.
  rewrite Z.sub_diag. repeat split; [exact Hincr | lia].
Qed.

(** X10.  The identifier a successful Redeem returns is the one in the event
    it emitted: [TxIdForRedeemAttempt] of the ticketId and of the sequence
    number that the store's increment returned on the ticket just opened.
    That increment is the call's only write: the store is as it left it.
    The gas the event donates is never negative. *)
Theorem Redeem_returns_the_id_it_emits
    (w w' : World S) (redeemTxId : hash) :
  Redeem con ticketId w = (Ok redeemTxId, w') →
  ∃ r sequenceNum donated,
    retryables.OpenRetryable ticketId (Uint64 (Time w)) (state w) = Ok (Some r)
    ∧ retryables.IncrementNumTries r (state w) = (Ok sequenceNum, state w')
    ∧ redeemTxId = retryables.TxIdForRedeemAttempt ticketId sequenceNum
    ∧ events w' =
        events w ++ [RedeemScheduled ticketId redeemTxId sequenceNum donated
                                     (caller w)]
    ∧ 0 ≤ donated.
Proof.
  intros Hrun.
  destruct (Redeem_succeeded_on_any_store _ _ _ Hrun)
    as (byteCount & r & sequenceNum & s' & _ & Hopen & Hincr & Hid & Hpaid & Hw').
  clear Hrun. cbn zeta in Hw'. subst w'. exists r, sequenceNum. eexists.
  cbn [state]. repeat split; try assumption; [observed | lia].
Qed.

(** X11.  A Redeem that fails emits no event, and changes the store only if
    the failure is the error of the store's increment: otherwise the store
    is the one before the call.  In particular the burn of the remaining gas
    that ends Redeem never fails. *)
Theorem Redeem_failed_emits_nothing (w w' : World S) (e : error) :
  Redeem con ticketId w = (Err e, w') →
  events w' = events w
  ∧ (state w' = state w
     ∨ ∃ r, retryables.OpenRetryable ticketId (Uint64 (Time w)) (state w)
            = Ok (Some r)
            ∧ retryables.IncrementNumTries r (state w) = (Err e, state w')).
Proof.
  unfold Redeem. run.
  destruct (gasLeft w <? _); run;
    [intros [= <- <-]; split; [reflexivity | left; reflexivity]|].
  destruct (retryables.RetryableSizeBytes _ _ _) as [byteCount|]; run;
    [|intros [= <- <-]; split; [observed | left; reflexivity]].
  destruct (_ <? wrap64 (SloadGas * WordsForBytes byteCount)); run;
    [intros [= <- <-]; split; [observed | left; reflexivity]|].
  destruct (retryables.OpenRetryable _ _ _) as [[r|]|]; run;
    try (intros [= <- <-]; split; [observed | left; reflexivity]).
  destruct (retryables.IncrementNumTries r (state w)) as [[sequenceNum|] s']
    eqn:Hincr; run.
  - rewrite Z.ltb_irrefl. run. discriminate.
  - intros [= <- <-]. cbn [state]. split; [observed|].
    right. exists r. split; [reflexivity | exact Hincr].
Qed.

(** X12.  Not finding the ticket is not free in Redeem: when the size read
    succeeds and the open then finds no ticket, the call returns not-found
    after burning both its first amount and the size-proportional amount;
    the store and the log are left alone. *)
Theorem Redeem_not_found_has_paid (w : World S) (byteCount : Z) :
  let now := Uint64 (Time w) in
  let first :=
    wrap64 (5 * SloadGas + SstoreSetGas
            + RedeemScheduledGasCost con ticketId ticketId 0 0 (caller w)) in
  let sized := wrap64 (SloadGas * WordsForBytes byteCount) in
  retryables.RetryableSizeBytes ticketId now (state w) = Ok byteCount →
  retryables.OpenRetryable ticketId now (state w) = Ok None →
  first + sized ≤ gasLeft w →
  ∃ w', Redeem con ticketId w = (Err NotFoundError, w')
        ∧ gasLeft w' = gasLeft w - first - sized
        ∧ burned w' = burned w ++ [first; sized]
        ∧ untouched w w'.
Proof.
  intros now first sized Hsize Hopen Hgas. subst now.
  pose proof (wrap64_range (SloadGas * WordsForBytes byteCount)) as Hsized.
  fold sized in Hsized.
  unfold Redeem. run. fold first.
  destruct (Z.ltb_spec (gasLeft w) first); [lia|]. run.
  next Hsize. fold sized.
  destruct (Z.ltb_spec (gasLeft w - first) sized); [lia|]. run.
  next Hopen. eexists. split; [reflexivity|]. cbn [gasLeft state].
  split; [reflexivity|]. split; [observed|]. split; [reflexivity | observed].
Qed.

(** X13.  No method of the precompile ever gives gas back or overdraws it:
    started with a gas budget that is not negative, each of the six methods
    ends with a budget that is not negative and not larger. *)
Theorem gas_is_only_spent (w : World S) :
  0 ≤ gasLeft w →
  (0 ≤ gasLeft (snd (Cancel ticketId w)) ≤ gasLeft w)
  ∧ (0 ≤ gasLeft (snd (GetBeneficiary ticketId w)) ≤ gasLeft w)
  ∧ (0 ≤ gasLeft (snd (GetLifetime w)) ≤ gasLeft w)
  ∧ (0 ≤ gasLeft (snd (GetTimeout ticketId w)) ≤ gasLeft w)
  ∧ (0 ≤ gasLeft (snd (Keepalive con ticketId w)) ≤ gasLeft w)
  ∧ (0 ≤ gasLeft (snd (Redeem con ticketId w)) ≤ gasLeft w).
Proof.
  intros Hgas.
  unfold Cancel, GetBeneficiary, GetLifetime, GetTimeout, Keepalive, Redeem.
  run. repeat apply conj.
  all: repeat (case_match; simplify_eq; run); cbn [snd gasLeft]; amounts; lia.
Qed.

End Tickets.

(** On a store whose renewal adds 600 to the old timeout of 1000, Keepalive
    at time 900 returns 1600, not the window 1500 it computed. *)
Lemma Keepalive_reports_what_the_store_holds_witness :
  let w := mkWorld 12 100000 oneTicket 900 [] in
  let w' := snd (@Keepalive gethParams sampleConsts _ _ adding sampleCon 7 w) in
  ∃ nbytes r t,
    SpecStore.size 7 900 oneTicket = Ok nbytes
    ∧ @retryables.Keepalive _ _ adding 7 900 1500 600 oneTicket
      = (Ok tt, state w')
    ∧ SpecStore.open 7 900 (state w') = Ok (Some r)
    ∧ SpecStore.readTimeout r (state w') = Ok t
    ∧ 1600 = int64 t
    ∧ events w' = [LifetimeExtended 7 1600]
    ∧ burned w' = [41306; wrap64 (WordsForBytes nbytes * 20000) / 100]
    ∧ gasLeft w' = 100000 - 41306 - wrap64 (WordsForBytes nbytes * 20000) / 100.
Proof.
  intros w w'.
  apply (@Keepalive_reports_what_the_store_holds gethParams sampleConsts _ _
           adding sampleCon 7 w w' 1600).
  vm_compute. reflexivity.
Defined.

Lemma GetTimeout_after_Keepalive_witness :
  let w := mkWorld 12 100000 oneTicket 900 [] in
  let w' := snd (@Keepalive gethParams sampleConsts _ _ SpecStore.ticketStore
                            sampleCon 7 w) in
  fst (GetTimeout 7 (mkWorld 13 0 (state w') 900 [])) = Ok 1500.
Proof.
  intros w w'.
  apply (@GetTimeout_after_Keepalive gethParams sampleConsts _ _
           SpecStore.ticketStore sampleCon 7 w w'
           (mkWorld 13 0 (state w') 900 []) 1500).
  - vm_compute. reflexivity.
  - reflexivity.
  - reflexivity.
Defined.

(** With 42000 gas the first burn of Keepalive passes and the second does
    not. *)
Lemma Keepalive_failed_emits_nothing_witness :
  let w := mkWorld 12 42000 oneTicket 900 [] in
  let w' := snd (@Keepalive gethParams sampleConsts _ _ SpecStore.ticketStore
                            sampleCon 7 w) in
  events w' = []
  ∧ (state w' = oneTicket
     ∨ ∃ outcome, SpecStore.renew 7 900 1500 600 oneTicket = (outcome, state w')).
Proof.
  intros w w'.
  apply (@Keepalive_failed_emits_nothing gethParams sampleConsts _ _
           SpecStore.ticketStore sampleCon 7 w w' ErrOutOfGas).
  vm_compute. reflexivity.
Defined.

Lemma Redeem_returns_the_id_it_emits_witness :
  let w := mkWorld 12 100000 oneTicket 900 [] in
  let w' := snd (@Redeem gethParams sampleConsts _ _ SpecStore.ticketStore
                         sampleCon 7 w) in
  ∃ r sequenceNum donated,
    SpecStore.open 7 900 oneTicket = Ok (Some r)
    ∧ SpecStore.incrementTries r oneTicket = (Ok sequenceNum, state w')
    ∧ 7 * 2 ^ 64 + 1 = 7 * 2 ^ 64 + sequenceNum
    ∧ events w' = [RedeemScheduled 7 (7 * 2 ^ 64 + 1) sequenceNum donated 12]
    ∧ 0 ≤ donated.
Proof.
  intros w w'.
  apply (@Redeem_returns_the_id_it_emits gethParams sampleConsts _ _
           SpecStore.ticketStore sampleCon 7 w w' (7 * 2 ^ 64 + 1)).
  vm_compute. reflexivity.
Defined.

(** With 22600 gas the first burn of Redeem passes and the second does
    not. *)
Lemma Redeem_failed_emits_nothing_witness :
  let w := mkWorld 12 22600 oneTicket 900 [] in
  let w' := snd (@Redeem gethParams sampleConsts _ _ SpecStore.ticketStore
                         sampleCon 7 w) in
  events w' = []
  ∧ (state w' = oneTicket
     ∨ ∃ r, SpecStore.open 7 900 oneTicket = Ok (Some r)
            ∧ SpecStore.incrementTries r oneTicket
              = (Err ErrOutOfGas, state w')).
Proof.
  intros w w'.
  apply (@Redeem_failed_emits_nothing gethParams sampleConsts _ _
           SpecStore.ticketStore sampleCon 7 w w' ErrOutOfGas).
  vm_compute. reflexivity.
Defined.

(** Redeem of ticket 9, which the store does not hold, costs 22518 gas. *)
Lemma Redeem_not_found_has_paid_witness :
  ∃ w', @Redeem gethParams sampleConsts _ _ SpecStore.ticketStore sampleCon 9
          (mkWorld 12 100000 oneTicket 900 []) = (Err NotFoundError, w')
        ∧ gasLeft w' = 100000 - 22518 - 0
        ∧ burned w' = [22518; 0]
        ∧ untouched (mkWorld 12 100000 oneTicket 900 []) w'.
Proof.
  apply (@Redeem_not_found_has_paid gethParams sampleConsts _ _
           SpecStore.ticketStore sampleCon 9
           (mkWorld 12 100000 oneTicket 900 []) 0).
  - reflexivity.
  - reflexivity.
  - vm_compute; discriminate.
Defined.

Lemma gas_is_only_spent_witness :
  let w := mkWorld 12 100000 oneTicket 900 [] in
  0 ≤ gasLeft (snd (@Keepalive gethParams sampleConsts _ _
                      SpecStore.ticketStore sampleCon 7 w)) ≤ 100000
  ∧ 0 ≤ gasLeft (snd (@Redeem gethParams sampleConsts _ _
                        SpecStore.ticketStore sampleCon 7 w)) ≤ 100000.
Proof.
  intros w.
  destruct (@gas_is_only_spent gethParams sampleConsts _ _
              SpecStore.ticketStore sampleCon 7 w)
    as (_ & _ & _ & _ & Hkeepalive & Hredeem).
  - vm_compute; discriminate.
  - split; [exact Hkeepalive | exact Hredeem].
Defined.

(** ** The fee registry *)

Section AnyRegistry.
Context {S : Type} `{l1pricing.Registry S}.
Variables aggregator newFeeCollector : addr.

(** X14.  For any registry, SetFeeCollector reads the current collector
    first.  If that read fails its error is returned and nothing is written;
    if the caller is neither the aggregator nor the collector read, the
    authorization error is returned and the registry's setter is not called;
    otherwise the call is the setter's call, and returns what it returns. *)
Theorem SetFeeCollector_checks_before_writing (w : World S) :
  let readOnly :=
    mkWorld (caller w) (gasLeft w) (state w) (Time w)
            (trace w ++ [Call OpAggregatorFeeCollector]) in
  let written :=
    l1pricing.SetAggregatorFeeCollector aggregator newFeeCollector (state w) in
  match l1pricing.AggregatorFeeCollector aggregator (state w) with
  | Err e => SetFeeCollector aggregator newFeeCollector w = (Err e, readOnly)
  | Ok collector =>
      (caller w ≠ aggregator ∧ caller w ≠ collector →
       SetFeeCollector aggregator newFeeCollector w =
         (Err (ErrorsNew
                 "non-authorized c.caller in ArbAggregator.SetFeeCollector"),
          readOnly))
      ∧ (caller w = aggregator ∨ caller w = collector →
         SetFeeCollector aggregator newFeeCollector w =
           (fst written,
            mkWorld (caller w) (gasLeft w) (snd written) (Time w)
                    (trace w ++ [Call OpAggregatorFeeCollector;
                                 Call OpSetAggregatorFeeCollector])))
  end.
Proof.
  intros readOnly written. unfold SetFeeCollector. run.
  destruct (l1pricing.AggregatorFeeCollector aggregator (state w))
    as [collector|e]; run; [|reflexivity].
  split.
  - intros [Ha Hc]. now rewrite !bool_decide_eq_true_2 by assumption.
  - intros Hauth.
    replace (bool_decide (caller w ≠ aggregator)
             && bool_decide (caller w ≠ collector)) with false.
    + run. fold written. destruct written as [outcome s']. cbn [fst snd].
      flat. reflexivity.
    + symmetry. apply andb_false_iff.
      destruct Hauth as [Ha | Hc]; [left | right];
        apply bool_decide_eq_false_2; intros Hne; now apply Hne.
Qed.

End AnyRegistry.

Section SpecRegistry_facts.
Import SpecRegistry.
Implicit Types (w v : World L1PricingState).

(** What a successful SetFeeCollector did on the registry of the
    specification. *)
Lemma SetFeeCollector_succeeded aggregator newFeeCollector w w' :
  SetFeeCollector aggregator newFeeCollector w = (Ok tt, w') →
  feeCollectors (state w') = <[aggregator := newFeeCollector]> (feeCollectors (state w))
  ∧ fixedCharges (state w') = fixedCharges (state w)
  ∧ preferredAggregators (state w') = preferredAggregators (state w)
  ∧ defaultAggregator (state w') = defaultAggregator (state w).
Proof.
  unfold SetFeeCollector. run.
  cbn [l1pricing.AggregatorFeeCollector l1pricing.SetAggregatorFeeCollector
       registry].
  unfold feeCollector, setFeeCollector. run.
  destruct (_ && _); run; [discriminate|].
  intros [= <-]. now cbn.
Qed.

(** X15.  Once SetFeeCollector has installed a new collector, the right to
    set the aggregator's collector belongs to the aggregator and to the new
    collector and to nobody else: a later SetFeeCollector for that
    aggregator succeeds exactly for these two callers, so a collector that
    has been replaced can no longer reassign the role. *)
Theorem replaced_collector_loses_the_role
    aggregator newFeeCollector next w w' v :
  SetFeeCollector aggregator newFeeCollector w = (Ok tt, w') →
  state v = state w' →
  fst (SetFeeCollector aggregator next v) = Ok tt
  ↔ caller v = aggregator ∨ caller v = newFeeCollector.
Proof.
  intros Hrun Hstate.
  destruct (SetFeeCollector_succeeded _ _ _ _ Hrun) as (Hcol & _).
  unfold SetFeeCollector. run.
  cbn [l1pricing.AggregatorFeeCollector l1pricing.SetAggregatorFeeCollector
       registry].
  unfold feeCollector, setFeeCollector. run.
  rewrite Hstate, Hcol, lookup_insert_eq. cbn [default].
  destruct (decide (caller v = aggregator)) as [Ha | Ha];
    destruct (decide (caller v = newFeeCollector)) as [Hc | Hc].
  all: rewrite ?(bool_decide_eq_true_2 _ Ha), ?(bool_decide_eq_true_2 _ Hc);
    try rewrite (bool_decide_eq_false_2 (caller v ≠ aggregator))
      by (intros Hne; now apply Hne);
    try rewrite (bool_decide_eq_false_2 (caller v ≠ newFeeCollector))
      by (intros Hne; now apply Hne);
    cbn [andb fst]; split; try tauto; try discriminate; intros; reflexivity.
Qed.

(** X16.  SetPreferredAggregator writes the entry of the caller and of no
    other sender: afterwards GetPreferredAggregator of the caller returns
    the new aggregator with the found flag set, GetPreferredAggregator of
    any other address returns what it returned before, and the fee
    collectors, the base fees and the default aggregator are untouched. *)
Theorem SetPreferredAggregator_writes_the_callers_entry (prefAgg : addr) w :
  ∃ w', SetPreferredAggregator prefAgg w = (Ok tt, w')
        ∧ fst (GetPreferredAggregator (caller w) w') = Ok (prefAgg, true)
        ∧ (∀ other, other ≠ caller w →
             fst (GetPreferredAggregator other w')
             = fst (GetPreferredAggregator other w))
        ∧ (∀ a, fst (GetFeeCollector a w') = fst (GetFeeCollector a w))
        ∧ (∀ a, fst (GetTxBaseFee a w') = fst (GetTxBaseFee a w))
        ∧ fst (GetDefaultAggregator w') = fst (GetDefaultAggregator w).
Proof.
  eexists. split; [reflexivity|].
  unfold GetPreferredAggregator, GetFeeCollector, GetTxBaseFee,
    GetDefaultAggregator. run.
  cbn [l1pricing.PreferredAggregator l1pricing.AggregatorFeeCollector
       l1pricing.FixedChargeForAggregatorL1Gas l1pricing.DefaultAggregator
       l1pricing.SetPreferredAggregator registry].
  unfold preferredAggregator, setPreferredAggregator. cbn.
  rewrite lookup_insert_eq. repeat split.
  intros other Hother. now rewrite lookup_insert_ne by congruence.
Qed.

(** X17.  SetDefaultAggregator and SetTxBaseFee make no check of the caller:
    for every caller they succeed, and the matching getter then returns the
    value written; SetTxBaseFee leaves the base fee of every other
    aggregator as it was. *)
Theorem default_aggregator_and_base_fee_are_unguarded
    (newDefault aggregator : addr) (feeInL1Gas : Z) w :
  (∃ w', SetDefaultAggregator newDefault w = (Ok tt, w')
         ∧ fst (GetDefaultAggregator w') = Ok newDefault)
  ∧ (∃ w', SetTxBaseFee aggregator feeInL1Gas w = (Ok tt, w')
           ∧ fst (GetTxBaseFee aggregator w') = Ok feeInL1Gas
           ∧ ∀ other, other ≠ aggregator →
               fst (GetTxBaseFee other w') = fst (GetTxBaseFee other w)).
Proof.
  split; eexists; (split; [reflexivity|]).
  - reflexivity.
  - unfold GetTxBaseFee. run.
    cbn [l1pricing.FixedChargeForAggregatorL1Gas
         l1pricing.SetFixedChargeForAggregatorL1Gas registry].
    unfold fixedCharge, setFixedCharge. cbn.
    rewrite lookup_insert_eq. split; [reflexivity|].
    intros other Hother. now rewrite lookup_insert_ne by congruence.
Qed.

End SpecRegistry_facts.

(** In [sampleRegistry] caller 2 hands aggregator 1's collector role to 3;
    afterwards caller 2 is refused and caller 3 is not. *)
Lemma replaced_collector_loses_the_role_witness :
  let w := mkWorld 2 0 sampleRegistry 900 [] in
  let w' := snd (SetFeeCollector 1 3 w) in
  (fst (SetFeeCollector 1 4 (mkWorld 3 0 (state w') 950 [])) = Ok tt
   ↔ (3 = 1 ∨ 3 = 3))
  ∧ (fst (SetFeeCollector 1 4 (mkWorld 2 0 (state w') 950 [])) = Ok tt
     ↔ (2 = 1 ∨ 2 = 3)).
Proof.
  intros w w'. split.
  - apply (replaced_collector_loses_the_role 1 3 4 w w'
             (mkWorld 3 0 (state w') 950 [])); reflexivity.
  - apply (replaced_collector_loses_the_role 1 3 4 w w'
             (mkWorld 2 0 (state w') 950 [])); reflexivity.
Defined.

(** ** Life and death of a ticket on the store of the specification *)

Lemma sum_did_not_wrap now lifetime :
  0 ≤ now < 2 ^ 64 → 0 ≤ lifetime < 2 ^ 64 →
  now ≤ wrap64 (now + lifetime) →
  wrap64 (now + lifetime) = now + lifetime.
Proof.
  intros Hnow Hlifetime Hle.
  destruct (Z.lt_ge_cases (now + lifetime) (2 ^ 64)) as [Hfit | Hwrap].
  - apply wrap64_small. lia.
  - exfalso. unfold wrap64 in Hle.
    assert ((now + lifetime) mod 2 ^ 64 = now + lifetime - 2 ^ 64) as Hmod
      by (symmetry; apply Z.mod_unique with (q := 1); lia).
    lia.
Qed.

Section Life.
Import SpecStore.
Context `{GasParams} `{retryables.Consts}.
Variable con : ArbRetryableTx.
Variable ticketId : hash.
Implicit Types (w v : World RetryableState) (t : Retryable).

(** X18.  Cancel by the beneficiary of a present, unexpired ticket succeeds,
    removes that ticket and no other from the store, and emits the canceled
    event; from then on Cancel and GetTimeout of that ticketId return
    not-found, at any time and for any caller. *)
Theorem Cancel_by_the_beneficiary_removes_the_ticket w t :
  present ticketId (Uint64 (Time w)) (state w) t →
  caller w = beneficiary t →
  ∃ w', Cancel ticketId w = (Ok tt, w')
        ∧ state w' !! ticketId = None
        ∧ (∀ other, other ≠ ticketId → state w' !! other = state w !! other)
        ∧ events w' = events w ++ [Canceled ticketId]
        ∧ ∀ v, state v = state w' →
               fst (Cancel ticketId v) = Err NotFoundError
               ∧ fst (GetTimeout ticketId v) = Err NotFoundError.
Proof.
  intros Hp Hcaller. eexists. split.
  - unfold Cancel. run.
    next (open_present _ _ _ _ Hp).
    next (beneficiary_stored _ _ _ (proj1 Hp)).
    rewrite bool_decide_eq_false_2 by (intros Hne; now apply Hne). run.
    cbn [retryables.DeleteRetryable ticketStore]. unfold delete. run.
    flat. reflexivity.
  - cbn [state]. split; [apply lookup_delete_eq|].
    split; [intros other Hother; now apply lookup_delete_ne|].
    split; [observed|].
    intros v Hv.
    assert (absentOrExpired ticketId (Uint64 (Time v)) (state v)) as Habsent
      by (left; rewrite Hv; apply lookup_delete_eq).
    split; [apply (Cancel_absent _ _ Habsent)
           | apply (GetTimeout_absent _ _ Habsent)].
Qed.

(** X19.  After a successful Keepalive at time now, the ticket stays present
    up to and including time now + RetryableLifetimeSeconds, even when its
    old timeout was earlier: any GetTimeout on that store up to that time
    finds it and returns the value Keepalive returned. *)
Theorem Keepalive_keeps_the_ticket_until_the_new_timeout
    w w' v t newTimeout :
  present ticketId (Uint64 (Time w)) (state w) t →
  Keepalive con ticketId w = (Ok newTimeout, w') →
  state v = state w' →
  Uint64 (Time v) ≤ Uint64 (Time w) + retryables.RetryableLifetimeSeconds →
  present ticketId (Uint64 (Time v)) (state v)
    (renewed (Uint64 (Time w) + retryables.RetryableLifetimeSeconds) t)
  ∧ fst (GetTimeout ticketId v) = Ok newTimeout.
Proof.
  intros Hp Hrun Hv Hlate.
  destruct (Keepalive_succeeded _ _ _ _ _ Hrun)
    as (nbytes & s' & r & t0 & _ & _ & Hrenew & Hopen & Ht & Hnew & Hw').
  clear Hrun. subst w'. cbn [state] in Hv.
  rewrite (renew_present _ _ _ _ _ _ Hp) in Hrenew.
  injection Hrenew as <-.
  rewrite open_inserted in Hopen.
  destruct (expired _ _) eqn:Hlive; [discriminate|]. injection Hopen as <-.
  rewrite (timeout_stored _ _ _ (lookup_insert_eq _ _ _)) in Ht.
  injection Ht as <-. cbn [timeout renewed] in *.
  unfold expired in Hlive. cbn [timeout renewed] in Hlive.
  apply Z.ltb_ge in Hlive.
  pose proof (wrap64_range (Z.abs (Time w))) as Hnow.
  fold (Uint64 (Time w)) in Hnow.
  pose proof retryables.RetryableLifetimeSeconds_fits as HL.
  assert (wrap64 (Uint64 (Time w) + retryables.RetryableLifetimeSeconds)
          = Uint64 (Time w) + retryables.RetryableLifetimeSeconds) as Hsum
    by (apply sum_did_not_wrap; lia).
  rewrite Hsum in *.
  assert (present ticketId (Uint64 (Time v)) (state v)
            (renewed (Uint64 (Time w) + retryables.RetryableLifetimeSeconds) t))
    as Hpresent.
  { split; [rewrite Hv; apply lookup_insert_eq | exact Hlate]. }
  split; [exact Hpresent|].
  unfold GetTimeout. run.
  next (open_present _ _ _ _ Hpresent).
  next (timeout_stored _ _ _ (proj1 Hpresent)). now rewrite Hnew.
Qed.

(** X20.  A ticket whose stored size is zero cannot be kept alive: although
    it is present and unexpired, and GetTimeout returns its timeout,
    Keepalive takes the zero size for absence and returns not-found once its
    first burn is paid, leaving the store and the log alone. *)
Theorem empty_ticket_cannot_be_kept_alive w t :
  present ticketId (Uint64 (Time w)) (state w) t →
  sizeBytes t = 0 →
  fst (Keepalive con ticketId w) =
    (if gasLeft w <? wrap64 (6 * SloadGas + 2 * SstoreSetGas
                             + LifetimeExtendedGasCost con ticketId 0)
     then Err ErrOutOfGas else Err NotFoundError)
  ∧ untouched w (snd (Keepalive con ticketId w))
  ∧ fst (GetTimeout ticketId w) = Ok (int64 (timeout t)).
Proof.
  intros Hp Hempty. repeat apply conj.
  - unfold Keepalive. run. destruct (gasLeft w <? _); run; [reflexivity|].
    next (size_present _ _ _ _ Hp). rewrite Hempty.
    rewrite bool_decide_eq_true_2 by reflexivity. reflexivity.
  - unfold Keepalive. run. destruct (gasLeft w <? _); run; [reflexivity|].
    next (size_present _ _ _ _ Hp). rewrite Hempty.
    rewrite bool_decide_eq_true_2 by reflexivity. reflexivity.
  - unfold Keepalive. run. destruct (gasLeft w <? _); run; [reflexivity|].
    next (size_present _ _ _ _ Hp). rewrite Hempty.
    rewrite bool_decide_eq_true_2 by reflexivity. run. cbn [snd]. observed.
  - unfold GetTimeout. run.
    next (open_present _ _ _ _ Hp).
    next (timeout_stored _ _ _ (proj1 Hp)). reflexivity.
Qed.

End Life.

(** Caller 11 cancels ticket 7 of [twoTickets]; ticket 8 stays. *)
Lemma Cancel_by_the_beneficiary_removes_the_ticket_witness :
  ∃ w', Cancel 7 (mkWorld 11 0 twoTickets 900 []) = (Ok tt, w')
        ∧ state w' !! 7 = None
        ∧ (∀ other, other ≠ 7 → state w' !! other = twoTickets !! other)
        ∧ events w' = [Canceled 7]
        ∧ ∀ v, state v = state w' →
               fst (Cancel 7 v) = Err NotFoundError
               ∧ fst (GetTimeout 7 v) = Err NotFoundError.
Proof.
  apply (Cancel_by_the_beneficiary_removes_the_ticket 7
           (mkWorld 11 0 twoTickets 900 [])
           (SpecStore.mkRetryable 11 100 0 1000)).
  - split; [reflexivity | vm_compute; discriminate].
  - reflexivity.
Defined.

(** Ticket 7 would expire at 1000; renewed at 900, it is still there at
    1400. *)
Lemma Keepalive_keeps_the_ticket_until_the_new_timeout_witness :
  let w := mkWorld 12 100000 oneTicket 900 [] in
  let w' := snd (@Keepalive gethParams sampleConsts _ _ SpecStore.ticketStore
                            sampleCon 7 w) in
  present 7 1400 (state w') (SpecStore.mkRetryable 11 100 0 1500)
  ∧ fst (GetTimeout 7 (mkWorld 13 0 (state w') 1400 [])) = Ok 1500.
Proof.
  intros w w'.
  apply (@Keepalive_keeps_the_ticket_until_the_new_timeout gethParams
           sampleConsts sampleCon 7 w w' (mkWorld 13 0 (state w') 1400 [])
           (SpecStore.mkRetryable 11 100 0 1000) 1500).
  - split; [reflexivity | vm_compute; discriminate].
  - vm_compute. reflexivity.
  - reflexivity.
  - vm_compute; discriminate.
Defined.

Lemma empty_ticket_cannot_be_kept_alive_witness :
  let w := mkWorld 12 100000 emptyTicket 900 [] in
  fst (@Keepalive gethParams sampleConsts _ _ SpecStore.ticketStore
                  sampleCon 7 w) = Err NotFoundError
  ∧ fst (GetTimeout 7 w) = Ok 1000.
Proof.
  intros w.
  destruct (@empty_ticket_cannot_be_kept_alive gethParams sampleConsts
              sampleCon 7 w (SpecStore.mkRetryable 11 0 0 1000))
    as (Hkeepalive & _ & Htimeout).
  - split; [reflexivity | vm_compute; discriminate].
  - reflexivity.
  - split; [exact Hkeepalive | exact Htimeout].
Defined.

(** ** Who may call *)

Section Callers.
Context `{GasParams} `{retryables.Consts} {S R : Type} `{retryables.Store S R}.
Variable con : ArbRetryableTx.
Variable ticketId : hash.

(** X21.  Keepalive, GetBeneficiary and GetTimeout make no check of the
    caller: run by another caller on the same store, at the same time and
    with the same gas, each returns the same result, leaves the same store
    and the same gas, and has the same trace. *)
Theorem anyone_may_read_and_keep_alive (w : World S) (other : addr) :
  let w2 := mkWorld other (gasLeft w) (state w) (Time w) (trace w) in
  let same {A} (m : M S A) :=
    fst (m w2) = fst (m w)
    ∧ state (snd (m w2)) = state (snd (m w))
    ∧ gasLeft (snd (m w2)) = gasLeft (snd (m w))
    ∧ trace (snd (m w2)) = trace (snd (m w)) in
  same (Keepalive con ticketId)
  ∧ same (GetBeneficiary ticketId)
  ∧ same (GetTimeout ticketId).
Proof.
  intros w2 same. subst w2 same.
  unfold Keepalive, GetBeneficiary, GetTimeout. run.
  repeat apply conj.
  all: repeat (case_match; simplify_eq; run); reflexivity.
Qed.

End Callers.

(** ** Where the claims as first stated fail *)

(** C1, as stated, fails: ticket 7 of [farTicket] is renewed at time
    2^63 - 600 with a window of 600 seconds.  The ticket's timeout becomes
    2^63, which is now + window, but the call returns -2^63. *)
Lemma Keepalive_returns_a_negative_timeout :
  let w := mkWorld 12 100000 farTicket (2 ^ 63 - 600) [] in
  let run := @Keepalive gethParams sampleConsts _ _ SpecStore.ticketStore
                        sampleCon 7 w in
  present 7 (Uint64 (Time w)) (state w)
          (SpecStore.mkRetryable 11 100 0 (2 ^ 63 + 5))
  ∧ SpecStore.timeout <$> state (snd run) !! 7
    = Some (Uint64 (Time w) + 600)
  ∧ fst run = Ok (- 2 ^ 63)
  ∧ - 2 ^ 63 ≠ Uint64 (Time w) + 600.
Proof.
  intros w run. split; [split; [reflexivity | vm_compute; discriminate]|].
  split; [vm_compute; reflexivity|]. split; [vm_compute; reflexivity|].
  vm_compute. discriminate.
Qed.

